(** * TinyEmbree [Core/cbench.cpp]: the overhead benchmark driver

    A shallow embedding of the benchmark driver and of the three external
    interfaces it talks to: the C library generator ([std::srand],
    [std::rand], [RAND_MAX]), the raytracing engine declared in
    [raytrace.h], and [std::chrono].  The driver is a single sequential
    procedure; it is modelled as a state-passing computation over a
    [World] that holds the generator state, the engine state, the clock,
    the two stack arrays of [main], the storage of the local [hit], the
    console, a log of every external call in the order in which it is
    made, and the same calls interleaved with the console writes. *)

From Stdlib Require Import ZArith List Lia Bool String.
From Stdlib Require Import SpecFloat.
Import ListNotations.
Local Open Scope Z_scope.

(** ** Single-precision floats

    [float] is IEEE 754 binary32: 24 bits of precision, exponents of the
    infinities at 128, operations rounded to nearest, ties to even. *)
Definition f32_prec : Z := 24.
Definition f32_emax : Z := 128.

Definition float : Type := spec_float.

(** [(float) n] for an integer [n]. *)
Definition float_of_int (n : Z) : float :=
  binary_normalize f32_prec f32_emax n 0 false.

(** [a / b] on [float]. *)
Definition float_div (a b : float) : float := SFdiv f32_prec f32_emax a b.

(** The literal [0.0f]. *)
Definition float_zero : float := S754_zero false.

(** The value [1.0f]. *)
Definition float_one : float := S754_finite false 8388608 (-23).

(** [a <= b] and [a < b] on [float]. *)
Definition float_leb (a b : float) : bool := SFleb a b.
Definition float_ltb (a b : float) : bool := SFltb a b.

(** [c] lies in the closed interval from [0.0f] to [1.0f], and in the
    interval that leaves [1.0f] out. *)
Definition in_unit_closed (c : float) : Prop :=
  float_leb float_zero c = true /\ float_leb c float_one = true.

Definition in_unit_half_open (c : float) : Prop :=
  float_leb float_zero c = true /\ float_ltb c float_one = true.

(** [c] is a positive normal number, not above [1.0f] and not below
    [2^-32]: sign bit clear, a mantissa [m] of 24 bits, and a value
    [m * 2^e] between [2^-32] and [1], which is written here for the
    integer [m * 2^(e+55)], between [2^23] and [2^55]. *)
Definition positive_normal (c : float) : Prop :=
  exists m e, c = S754_finite false m e
              /\ 2 ^ 23 <= Zpos m < 2 ^ 24 /\ -55 <= e <= -23
              /\ 2 ^ 23 <= Zpos m * 2 ^ (e + 55) <= 2 ^ 55.

(** The integer nearest to [r / 2^s], the even one of the two when [r] is
    half way. *)
Definition rne_div (r s : Z) : Z :=
  let q := r / 2 ^ s in
  let rem := r mod 2 ^ s in
  if 2 * rem <? 2 ^ s then q
  else if 2 * rem =? 2 ^ s then (if Z.even q then q else q + 1)
  else q + 1.

(** The integer that [(float) r] stands for, for a positive [int]: [r]
    itself up to 24 bits, beyond that [r] rounded to its 24 leading bits. *)
Definition rounded_int (r : Z) : Z :=
  if r <? 2 ^ 24 then r
  else let s := Z.log2 r - 23 in rne_div r s * 2 ^ s.

(** The integer nearest to [n / d], the even one of the two when [n / d]
    is half way. *)
Definition rne_frac (n d : Z) : Z :=
  let q := n / d in
  let r := n mod d in
  if 2 * r <? d then q
  else if 2 * r =? d then (if Z.even q then q else q + 1)
  else q + 1.

(** ** Values exchanged with the engine *)

Record Vector3 : Type := mkVector3 { vx : float; vy : float; vz : float }.

(** [Ray { origin, direction, parameter }], in the order of the braces of
    the source. *)
Record Ray : Type := mkRay {
  ray_origin : Vector3;
  ray_direction : Vector3;
  ray_param : float
}.

(** ** External interfaces

    None of the three is defined in this repository; each is taken as an
    interface, with the guarantees the C and C++ standards give. *)

(** [<cstdlib>]: [std::srand] fixes the whole state of the generator from
    the seed; [std::rand] returns a value between [0] and [RAND_MAX], both
    included, and advances the state; [RAND_MAX] is an [int] constant that
    is at least 32767. *)
Class CStdlib : Type := {
  RAND_MAX : Z;
  rng : Type;
  srand : Z -> rng;
  rand : rng -> Z * rng;
  RAND_MAX_min : 32767 <= RAND_MAX;
  RAND_MAX_int : RAND_MAX <= 2147483647;
  rand_range : forall s, 0 <= fst (rand s) <= RAND_MAX
}.

(** [raytrace.h]: a scene is reached through an opaque handle (a [void*],
    here its address).  [Hit] is the output record of a query: a query is
    given the record as it stands and returns what it leaves in it.
    The engine reads the buffers and the ray it is given and owns a state
    of its own; it has no access to the generator or to the locals of the
    driver other than the record it is handed. *)
Class Raytrace : Type := {
  engine : Type;
  Hit : Type;
  InitScene : engine -> Z * engine;
  AddTriangleMesh : Z -> list float -> Z -> list Z -> Z -> engine -> Z * engine;
  FinalizeScene : Z -> engine -> engine;
  TraceSingle : Z -> Ray -> Hit -> engine -> Hit * engine;
  DeleteScene : Z -> engine -> engine
}.

(** [<chrono>]: [duration_cast_ms d] is
    [duration_cast<milliseconds>(d).count()] for a difference [d] of two
    readings of [high_resolution_clock]; its result is a 64-bit signed
    count. *)
Class Chrono : Type := {
  duration_cast_ms : Z -> Z;
  duration_cast_ms_range : forall d, - 2 ^ 63 <= duration_cast_ms d < 2 ^ 63
}.

(** Reduction of a mathematical integer to the range of [long long]. *)
Definition wrap64 (x : Z) : Z := (x + 2 ^ 63) mod 2 ^ 64 - 2 ^ 63.

(** [a - b] on [long long]. *)
Definition sub_ll (a b : Z) : Z := wrap64 (a - b).

(** [a / b] on [long long]: the quotient is truncated. *)
Definition div_ll (a b : Z) : Z := Z.quot a b.

Section Driver.

Context {LC : CStdlib} {RT : Raytrace} {CH : Chrono}.

(** What is sent to [std::cout]. *)
Inductive Out : Type :=
| OStr (s : string)
| OInt (n : Z)
| OEndl.

(** One external call, with its arguments and, last, its result. *)
Inductive Event : Type :=
| EvInitScene (handle : Z)
| EvAddTriangleMesh (handle : Z) (vertices : list float) (numVerts : Z)
                    (indices : list Z) (numIdx : Z) (meshId : Z)
| EvFinalizeScene (handle : Z)
| EvTraceSingle (handle : Z) (ray : Ray) (hit : Hit)
| EvDeleteScene (handle : Z)
| EvSrand (seed : Z)
| EvRand (r : Z)
| EvNow (t : Z).

(** One step of a run as seen from outside: an external call, or a
    statement that writes to [std::cout]. *)
Inductive Step : Type :=
| Call (e : Event)
| Write (items : list Out).

Record World : Type := mkWorld {
  w_rng : rng;               (* state of the C library generator *)
  w_engine : engine;         (* state owned by the engine *)
  w_clock : nat -> Z;        (* the readings the clock will give, in ticks *)
  w_vertices : list float;   (* the array [vertices] of [main] *)
  w_indices : list Z;        (* the array [indices] of [main] *)
  w_stdout : list Out;       (* console, oldest first *)
  w_events : list Event;     (* external calls, oldest first *)
  w_hit : Hit;               (* the storage of the local [hit] of the loop *)
  w_timeline : list Step     (* calls and console writes, oldest first *)
}.

(** *** The state-passing monad *)

Definition M (A : Type) : Type := World -> A * World.

Definition ret {A} (a : A) : M A := fun w => (a, w).

Definition bind {A B} (m : M A) (k : A -> M B) : M B :=
  fun w => let (a, w') := m w in k a w'.

Definition exec {A} (m : M A) (w : World) : World := snd (m w).
Definition result {A} (m : M A) (w : World) : A := fst (m w).

Definition log (e : Event) (w : World) : World :=
  mkWorld (w_rng w) (w_engine w) (w_clock w) (w_vertices w) (w_indices w)
          (w_stdout w) (w_events w ++ [e])
          (w_hit w) (w_timeline w ++ [Call e]).

(** *** Primitive steps *)

Definition std_srand (seed : Z) : M unit := fun w =>
  (tt, log (EvSrand seed)
         (mkWorld (srand seed) (w_engine w) (w_clock w) (w_vertices w)
                  (w_indices w) (w_stdout w) (w_events w)
                  (w_hit w) (w_timeline w))).

Definition std_rand : M Z := fun w =>
  let (r, s) := rand (w_rng w) in
  (r, log (EvRand r)
        (mkWorld s (w_engine w) (w_clock w) (w_vertices w) (w_indices w)
                 (w_stdout w) (w_events w) (w_hit w) (w_timeline w))).

Definition now : M Z := fun w =>
  let t := w_clock w O in
  (t, log (EvNow t)
        (mkWorld (w_rng w) (w_engine w) (fun n => w_clock w (S n))
                 (w_vertices w) (w_indices w) (w_stdout w) (w_events w)
                 (w_hit w) (w_timeline w))).

Definition cout (items : list Out) : M unit := fun w =>
  (tt, mkWorld (w_rng w) (w_engine w) (w_clock w) (w_vertices w)
               (w_indices w) (w_stdout w ++ items) (w_events w)
               (w_hit w) (w_timeline w ++ [Write items])).

Definition set_engine (e : engine) (w : World) : World :=
  mkWorld (w_rng w) e (w_clock w) (w_vertices w) (w_indices w)
          (w_stdout w) (w_events w) (w_hit w) (w_timeline w).

Definition call_InitScene : M Z := fun w =>
  let (h, e) := InitScene (w_engine w) in
  (h, log (EvInitScene h) (set_engine e w)).

Definition call_AddTriangleMesh (h : Z) (vs : list float) (nv : Z)
    (ix : list Z) (ni : Z) : M Z := fun w =>
  let (id, e) := AddTriangleMesh h vs nv ix ni (w_engine w) in
  (id, log (EvAddTriangleMesh h vs nv ix ni id) (set_engine e w)).

Definition call_FinalizeScene (h : Z) : M unit := fun w =>
  (tt, log (EvFinalizeScene h) (set_engine (FinalizeScene h (w_engine w)) w)).

Definition call_TraceSingle (h : Z) (ray : Ray) (hit : Hit) : M Hit := fun w =>
  let (hit', e) := TraceSingle h ray hit (w_engine w) in
  (hit', log (EvTraceSingle h ray hit) (set_engine e w)).

Definition call_DeleteScene (h : Z) : M unit := fun w =>
  (tt, log (EvDeleteScene h) (set_engine (DeleteScene h (w_engine w)) w)).

(** The two stack arrays of [main]. *)
Definition init_vertices (vs : list float) : M unit := fun w =>
  (tt, mkWorld (w_rng w) (w_engine w) (w_clock w) vs (w_indices w)
               (w_stdout w) (w_events w) (w_hit w) (w_timeline w)).

Definition init_indices (ix : list Z) : M unit := fun w =>
  (tt, mkWorld (w_rng w) (w_engine w) (w_clock w) (w_vertices w) ix
               (w_stdout w) (w_events w) (w_hit w) (w_timeline w)).

Definition read_vertices : M (list float) := fun w => (w_vertices w, w).
Definition read_indices : M (list Z) := fun w => (w_indices w, w).

(** The local [hit] of the loop body.  [Hit hit;] has no initialiser: the
    declaration writes nothing, and the record is what its storage holds,
    in every iteration the same storage.  The engine writes the record
    through the pointer [&hit]. *)
Definition declare_hit : M Hit := fun w => (w_hit w, w).

Definition write_hit (hit : Hit) : M unit := fun w =>
  (tt, mkWorld (w_rng w) (w_engine w) (w_clock w) (w_vertices w)
               (w_indices w) (w_stdout w) (w_events w) hit (w_timeline w)).

(** [for (int i = 0; i < n; ++i) body], for a body that does not read
    [i]: the body runs [n] times, and not at all when [n <= 0]. *)
Definition for_ (n : Z) (body : M unit) : M unit := fun w =>
  (tt, Z.iter n (exec body) w).

End Driver.

Declare Scope m_scope.
Delimit Scope m_scope with M.
Notation "x <- m ;; k" := (bind m (fun x => k))
  (at level 61, m at next level, right associativity) : m_scope.
Notation "m ;; k" := (bind m (fun _ => k))
  (at level 61, right associativity) : m_scope.

Local Open Scope m_scope.

Section Program.

Context {LC : CStdlib} {RT : Raytrace} {CH : Chrono}.

(** [(float)std::rand() / (float)RAND_MAX] for a value [r] returned by
    [std::rand]. *)
Definition rand_to_float (r : Z) : float :=
  float_div (float_of_int r) (float_of_int RAND_MAX).

(** [NextRandom3] (lines 6-12).  The three initialisers of the braces are
    evaluated from left to right. *)
Definition NextRandom3 : M Vector3 :=
  x <- std_rand ;;
  y <- std_rand ;;
  z <- std_rand ;;
  ret (mkVector3 (rand_to_float x) (rand_to_float y) (rand_to_float z)).

(** The initialisers of [vertices] and [indices] (lines 19-28). *)
Definition quad_vertices : list float :=
  map float_of_int [-1; 0; -1;   1; 0; -1;   1; 0; 1;   -1; 0; 1].

Definition quad_indices : list Z := [0; 1; 2;   0; 2; 3].

(** [sizeof(a) / sizeof(element)] for an array [a]. *)
Definition array_count {A} (a : list A) : Z := Z.of_nat (List.length a).

(** The body of the inner loop of the first phase (lines 42-48): the
    query is handed the record [hit] as its declaration leaves it, and
    what the query leaves in it stays in the storage of [hit]. *)
Definition trace_iteration (sceneHandle : Z) : M unit :=
  o <- NextRandom3 ;;
  d <- NextRandom3 ;;
  let ray := mkRay o d float_zero in
  hit <- declare_hit ;;
  written <- call_TraceSingle sceneHandle ray hit ;;
  write_hit written ;;
  ret tt.

(** The body of the inner loop of the second phase (lines 61-62). *)
Definition rng_iteration : M unit :=
  _ <- NextRandom3 ;;
  _ <- NextRandom3 ;;
  ret tt.

(** The two nested loops of the first phase (lines 40-50). *)
Definition phaseA (sceneHandle numTrials raysPerTrial : Z) : M unit :=
  for_ numTrials (for_ raysPerTrial (trace_iteration sceneHandle)).

(** The two nested loops of the second phase (lines 59-64). *)
Definition phaseB (numTrials raysPerTrial : Z) : M unit :=
  for_ numTrials (for_ raysPerTrial rng_iteration).

(** The body of [main] (lines 18-73), with the value of [numTrials] and
    the bound [1000000] of the inner loops as arguments. *)
Definition run_benchmark (numTrials raysPerTrial : Z) : M Z :=
  sceneHandle <- call_InitScene ;;
  init_vertices quad_vertices ;;
  init_indices quad_indices ;;
  vertices <- read_vertices ;;
  indices <- read_indices ;;
  meshId <- call_AddTriangleMesh sceneHandle vertices (array_count vertices)
                                 indices (array_count indices) ;;
  call_FinalizeScene sceneHandle ;;
  std_srand 1337 ;;
  cout [OStr "Tracing a million rays..."; OEndl] ;;
  start <- now ;;
  phaseA sceneHandle numTrials raysPerTrial ;;
  end_ <- now ;;
  let elapsedMs := duration_cast_ms (end_ - start) in
  cout [OStr "Done after "; OInt (div_ll elapsedMs numTrials);
        OStr "ms."; OEndl] ;;
  let totalCost := div_ll elapsedMs numTrials in
  start <- now ;;
  phaseB numTrials raysPerTrial ;;
  end_ <- now ;;
  let elapsedMs := duration_cast_ms (end_ - start) in
  cout [OStr "RNG overhead "; OInt (div_ll elapsedMs numTrials);
        OStr "ms."; OEndl] ;;
  let rngCost := div_ll elapsedMs numTrials in
  cout [OStr "Pure cost for tracing + overhead: ";
        OInt (sub_ll totalCost rngCost); OStr "ms."; OEndl] ;;
  call_DeleteScene sceneHandle ;;
  ret 0.

(** [main]: ten trials of a million iterations. *)
Definition main : M Z := run_benchmark 10 1000000.

End Program.

(** * What a run does, in closed form *)

Section Semantics.

Context {LC : CStdlib} {RT : Raytrace} {CH : Chrono}.

(** ** The generator as a stream *)

Definition next_value (s : rng) : Z := fst (rand s).
Definition next_state (s : rng) : rng := snd (rand s).

(** The state after [n] calls of [std::rand]. *)
Fixpoint advance (n : nat) (s : rng) : rng :=
  match n with
  | O => s
  | S n' => advance n' (next_state s)
  end.

(** The values of the next [n] calls of [std::rand]. *)
Fixpoint draws (n : nat) (s : rng) : list Z :=
  match n with
  | O => []
  | S n' => next_value s :: draws n' (next_state s)
  end.

(** The vector [NextRandom3] returns from state [s], and the ray an
    iteration of the first phase builds from state [s]. *)
Definition sample_vector (s : rng) : Vector3 :=
  mkVector3 (rand_to_float (next_value s))
            (rand_to_float (next_value (advance 1 s)))
            (rand_to_float (next_value (advance 2 s))).

Definition sample_ray (s : rng) : Ray :=
  mkRay (sample_vector s) (sample_vector (advance 3 s)) float_zero.

(** The rays of [n] successive iterations. *)
Fixpoint rays_from (n : nat) (s : rng) : list Ray :=
  match n with
  | O => []
  | S n' => sample_ray s :: rays_from n' (advance 6 s)
  end.

(** ** The calls of the two phases *)

(** What the query of an iteration returns, from the generator state
    [s], the engine state [e] and the record [hit] it is handed: the
    record as the query leaves it, and the next engine state. *)
Definition query (h : Z) (s : rng) (e : engine) (hit : Hit) : Hit * engine :=
  TraceSingle h (sample_ray s) hit e.

Definition iterA_events (h : Z) (s : rng) (hit : Hit) : list Event :=
  map EvRand (draws 6 s) ++ [EvTraceSingle h (sample_ray s) hit].

Definition iterB_events (s : rng) : list Event :=
  map EvRand (draws 6 s).

Fixpoint phaseA_events (h : Z) (n : nat) (s : rng) (e : engine) (hit : Hit)
    : list Event :=
  match n with
  | O => []
  | S n' =>
      iterA_events h s hit
      ++ phaseA_events h n' (advance 6 s)
           (snd (query h s e hit)) (fst (query h s e hit))
  end.

Fixpoint phaseB_events (n : nat) (s : rng) : list Event :=
  match n with
  | O => []
  | S n' => iterB_events s ++ phaseB_events n' (advance 6 s)
  end.

(** The engine after the queries of [n] iterations. *)
Fixpoint engine_after (h : Z) (n : nat) (s : rng) (e : engine) (hit : Hit)
    : engine :=
  match n with
  | O => e
  | S n' =>
      engine_after h n' (advance 6 s)
        (snd (query h s e hit)) (fst (query h s e hit))
  end.

(** The storage of [hit] after the queries of [n] iterations. *)
Fixpoint hit_after (h : Z) (n : nat) (s : rng) (e : engine) (hit : Hit)
    : Hit :=
  match n with
  | O => hit
  | S n' =>
      hit_after h n' (advance 6 s)
        (snd (query h s e hit)) (fst (query h s e hit))
  end.


(** Number of iterations of two nested loops. *)
Definition iterations (numTrials raysPerTrial : Z) : nat :=
  (Z.to_nat numTrials * Z.to_nat raysPerTrial)%nat.

(** ** Observations on a log of calls *)

Definition is_trace (e : Event) : bool :=
  match e with EvTraceSingle _ _ _ => true | _ => false end.

Definition is_rand (e : Event) : bool :=
  match e with EvRand _ => true | _ => false end.

Definition is_init (e : Event) : bool :=
  match e with EvInitScene _ => true | _ => false end.

Definition is_delete (e : Event) : bool :=
  match e with EvDeleteScene _ => true | _ => false end.

Definition is_finalize (e : Event) : bool :=
  match e with EvFinalizeScene _ => true | _ => false end.

Definition is_add_mesh (e : Event) : bool :=
  match e with EvAddTriangleMesh _ _ _ _ _ _ => true | _ => false end.

Definition is_srand (e : Event) : bool :=
  match e with EvSrand _ => true | _ => false end.

Definition is_now (e : Event) : bool :=
  match e with EvNow _ => true | _ => false end.

(** The handle an engine call is given (or, for creation, returns). *)
Definition event_handle (e : Event) : option Z :=
  match e with
  | EvInitScene h => Some h
  | EvAddTriangleMesh h _ _ _ _ _ => Some h
  | EvFinalizeScene h => Some h
  | EvTraceSingle h _ _ => Some h
  | EvDeleteScene h => Some h
  | _ => None
  end.

(** The rays of the queries of a log, in order. *)
Fixpoint traced_rays (l : list Event) : list Ray :=
  match l with
  | [] => []
  | EvTraceSingle _ ray _ :: l' => ray :: traced_rays l'
  | _ :: l' => traced_rays l'
  end.

(** The [Hit] records handed to the queries of a log, in order. *)
Fixpoint traced_hits (l : list Event) : list Hit :=
  match l with
  | [] => []
  | EvTraceSingle _ _ hit :: l' => hit :: traced_hits l'
  | _ :: l' => traced_hits l'
  end.

Definition count (p : Event -> bool) (l : list Event) : nat :=
  List.length (filter p l).

(** The calls a computation makes when it is run from [w]: what it adds
    to the log. *)
Definition emitted {A} (m : M A) (w : World) : list Event :=
  skipn (List.length (w_events w)) (w_events (exec m w)).

(** What a computation prints when it is run from [w]. *)
Definition printed {A} (m : M A) (w : World) : list Out :=
  skipn (List.length (w_stdout w)) (w_stdout (exec m w)).

(** The steps of a computation run from [w]: its calls and its console
    writes, in the order in which they happen. *)
Definition steps {A} (m : M A) (w : World) : list Step :=
  skipn (List.length (w_timeline w)) (w_timeline (exec m w)).

(** The calls of a list of steps, and what its writes print. *)
Fixpoint calls_of (l : list Step) : list Event :=
  match l with
  | [] => []
  | Call e :: l' => e :: calls_of l'
  | Write _ :: l' => calls_of l'
  end.

Fixpoint writes_of (l : list Step) : list Out :=
  match l with
  | [] => []
  | Call _ :: l' => writes_of l'
  | Write items :: l' => items ++ writes_of l'
  end.



(** ** The calls of a whole run *)

Definition scene_of (w : World) : Z := fst (InitScene (w_engine w)).

Definition mesh_of (w : World) : Z :=
  fst (AddTriangleMesh (scene_of w) quad_vertices 12 quad_indices 6
                       (snd (InitScene (w_engine w)))).

Definition setup_events (w : World) : list Event :=
  [ EvInitScene (scene_of w);
    EvAddTriangleMesh (scene_of w) quad_vertices 12 quad_indices 6 (mesh_of w);
    EvFinalizeScene (scene_of w) ].

(** The engine when the set-up is done. *)
Definition engine_ready (w : World) : engine :=
  FinalizeScene (scene_of w)
    (snd (AddTriangleMesh (scene_of w) quad_vertices 12 quad_indices 6
                          (snd (InitScene (w_engine w))))).

Definition run_events (numTrials raysPerTrial : Z) (w : World) : list Event :=
  let n := iterations numTrials raysPerTrial in
  setup_events w
  ++ [EvSrand 1337; EvNow (w_clock w 0%nat)]
  ++ phaseA_events (scene_of w) n (srand 1337) (engine_ready w) (w_hit w)
  ++ [EvNow (w_clock w 1%nat); EvNow (w_clock w 2%nat)]
  ++ phaseB_events n (advance (6 * n) (srand 1337))
  ++ [EvNow (w_clock w 3%nat); EvDeleteScene (scene_of w)].

(** The three reported figures. *)
Definition elapsedA (w : World) : Z :=
  duration_cast_ms (w_clock w 1%nat - w_clock w 0%nat).

Definition elapsedB (w : World) : Z :=
  duration_cast_ms (w_clock w 3%nat - w_clock w 2%nat).

Definition totalCost (numTrials : Z) (w : World) : Z :=
  div_ll (elapsedA w) numTrials.

Definition rngCost (numTrials : Z) (w : World) : Z :=
  div_ll (elapsedB w) numTrials.

Definition run_stdout (numTrials : Z) (w : World) : list Out :=
  [ OStr "Tracing a million rays..."; OEndl;
    OStr "Done after "; OInt (totalCost numTrials w); OStr "ms."; OEndl;
    OStr "RNG overhead "; OInt (rngCost numTrials w); OStr "ms."; OEndl;
    OStr "Pure cost for tracing + overhead: ";
    OInt (sub_ll (totalCost numTrials w) (rngCost numTrials w));
    OStr "ms."; OEndl ].

(** The engine at the end of a run. *)
Definition final_engine (numTrials raysPerTrial : Z) (w : World) : engine :=
  let h := scene_of w in
  DeleteScene h
    (engine_after h (iterations numTrials raysPerTrial) (srand 1337)
       (engine_ready w) (w_hit w)).

(** The steps of a whole run. *)
Definition run_steps (numTrials raysPerTrial : Z) (w : World) : list Step :=
  let n := iterations numTrials raysPerTrial in
  map Call (setup_events w)
  ++ [ Call (EvSrand 1337);
       Write [OStr "Tracing a million rays..."; OEndl];
       Call (EvNow (w_clock w 0%nat)) ]
  ++ map Call (phaseA_events (scene_of w) n (srand 1337)
                 (engine_ready w) (w_hit w))
  ++ [ Call (EvNow (w_clock w 1%nat));
       Write [OStr "Done after "; OInt (totalCost numTrials w);
              OStr "ms."; OEndl];
       Call (EvNow (w_clock w 2%nat)) ]
  ++ map Call (phaseB_events n (advance (6 * n) (srand 1337)))
  ++ [ Call (EvNow (w_clock w 3%nat));
       Write [OStr "RNG overhead "; OInt (rngCost numTrials w);
              OStr "ms."; OEndl];
       Write [OStr "Pure cost for tracing + overhead: ";
              OInt (sub_ll (totalCost numTrials w) (rngCost numTrials w));
              OStr "ms."; OEndl];
       Call (EvDeleteScene (scene_of w)) ].

(** The world at the end of a run. *)
Definition final_world (numTrials raysPerTrial : Z) (w : World) : World :=
  let n := iterations numTrials raysPerTrial in
  mkWorld (advance (6 * n) (advance (6 * n) (srand 1337)))
          (final_engine numTrials raysPerTrial w)
          (fun i => w_clock w (S (S (S (S i)))))
          quad_vertices quad_indices
          (w_stdout w ++ run_stdout numTrials w)
          (w_events w ++ run_events numTrials raysPerTrial w)
          (hit_after (scene_of w) n (srand 1337) (engine_ready w) (w_hit w))
          (w_timeline w ++ run_steps numTrials raysPerTrial w).

(** The integers printed on a console, in order. *)
Fixpoint printed_ints (l : list Out) : list Z :=
  match l with
  | [] => []
  | OInt n :: l' => n :: printed_ints l'
  | _ :: l' => printed_ints l'
  end.

(** The values returned by the calls of [std::rand] of a log, in order. *)
Fixpoint rand_values (l : list Event) : list Z :=
  match l with
  | [] => []
  | EvRand r :: l' => r :: rand_values l'
  | _ :: l' => rand_values l'
  end.

(** A call that belongs to the loop of the first phase: a draw or a
    query. *)
Definition is_rand_or_trace (e : Event) : bool := is_rand e || is_trace e.

End Semantics.

(** * A concrete platform

    One implementation of each external interface, on which the
    definitions above can be evaluated. *)

(** The generator the C standard gives as an example of [rand]: the state
    is a 32-bit [unsigned long], and [RAND_MAX] is 32767. *)
Definition example_rand (next : Z) : Z * Z :=
  let next' := (next * 1103515245 + 12345) mod 2 ^ 32 in
  ((next' / 65536) mod 32768, next').

Definition example_stdlib : CStdlib.
Proof.
  refine {| RAND_MAX := 32767;
            rng := Z;
            srand := fun seed => seed mod 2 ^ 32;
            rand := example_rand |}.
  - lia.
  - lia.
  - intro s. unfold example_rand. cbn [fst].
    pose proof (Z.mod_pos_bound
                  (((s * 1103515245 + 12345) mod 2 ^ 32) / 65536) 32768).
    lia.
Defined.

(** A generator with a 31-bit result, the linear congruential one of the
    GNU C library: the state is the last value returned, a seed of 0
    stands for 1, and [RAND_MAX] is [2^31 - 1]. *)
Definition lcg31_stdlib : CStdlib.
Proof.
  refine {| RAND_MAX := 2147483647;
            rng := Z;
            srand := fun seed => if seed =? 0 then 1 else seed mod 2 ^ 32;
            rand := fun s =>
              let v := (s * 1103515245 + 12345) mod 2 ^ 31 in (v, v) |}.
  - lia.
  - lia.
  - intro s. cbn [fst].
    pose proof (Z.mod_pos_bound (s * 1103515245 + 12345) (2 ^ 31)). lia.
Defined.

(** An engine that only counts the calls it receives; a handle is the
    address 4096, a [Hit] tells whether a query has written it. *)
Definition counting_engine : Raytrace :=
  {| engine := Z;
     Hit := bool;
     InitScene := fun e => (4096, e + 1);
     AddTriangleMesh := fun _ _ _ _ _ e => (0, e + 1);
     FinalizeScene := fun _ e => e + 1;
     TraceSingle := fun _ _ _ e => (true, e + 1);
     DeleteScene := fun _ e => e + 1 |}.

(** A clock that ticks in nanoseconds. *)
Definition nanosecond_chrono : Chrono.
Proof.
  refine {| duration_cast_ms := fun d => Z.quot (wrap64 d) 1000000 |}.
  intro d. unfold wrap64.
  pose proof (Z.mod_pos_bound (d + 2 ^ 63) (2 ^ 64)).
  assert (H1 : - 2 ^ 63 <= (d + 2 ^ 63) mod 2 ^ 64 - 2 ^ 63 < 2 ^ 63) by lia.
  set (x := (d + 2 ^ 63) mod 2 ^ 64 - 2 ^ 63) in *.
  clearbody x. clear H.
  Z.to_euclidean_division_equations; lia.
Defined.

(** A world in which the first phase takes 7 ms and the second 38 ms. *)
Definition example_clock (n : nat) : Z :=
  match n with
  | 0%nat => 0
  | 1%nat => 7000000
  | 2%nat => 7500000
  | _ => 45500000
  end.

Definition example_world : @World example_stdlib counting_engine :=
  @mkWorld example_stdlib counting_engine 1 0 example_clock [] [] [] []
           false [].

(** A second world: another generator state, another engine state, a
    slower clock, and something already on the console. *)
Definition other_world : @World example_stdlib counting_engine :=
  @mkWorld example_stdlib counting_engine 99 7
           (fun n => 1000 + 61000000 * Z.of_nat n)
           [float_zero] [5] [@OEndl] [] true [].

(** A third world: the clock of the example world read 1000 ticks later,
    with another generator state and another engine state. *)
Definition later_world : @World example_stdlib counting_engine :=
  @mkWorld example_stdlib counting_engine 77 3
           (fun n => 1000 + example_clock n) [] [] [@OEndl] [] true [].

(** * Running the driver *)

Section Run.

Context {LC : CStdlib} {RT : Raytrace} {CH : Chrono}.

Lemma bind_pair {A B} (m : M A) (k : A -> M B) (w w' : World) (a : A) :
  m w = (a, w') -> bind m k w = k a w'.
Proof. unfold bind. intros ->. reflexivity. Qed.

Lemma world_eta (w : World) :
  mkWorld (w_rng w) (w_engine w) (w_clock w) (w_vertices w) (w_indices w)
          (w_stdout w) (w_events w) (w_hit w) (w_timeline w) = w.
Proof. destruct w; reflexivity. Qed.

Lemma advance_add (a b : nat) (s : rng) :
  advance (a + b) s = advance b (advance a s).
Proof.
  revert s. induction a as [|a IH]; intro s; simpl; [reflexivity|apply IH].
Qed.

Ltac proj_world :=
  cbn [w_rng w_engine w_clock w_vertices w_indices w_stdout w_events
       w_hit w_timeline].

Ltac run_step L := erewrite bind_pair by apply L; proj_world.

Ltac run_prim := erewrite bind_pair by reflexivity; proj_world.

Lemma std_rand_run (w : World) :
  std_rand w =
  (next_value (w_rng w),
   mkWorld (next_state (w_rng w)) (w_engine w) (w_clock w) (w_vertices w)
           (w_indices w) (w_stdout w)
           (w_events w ++ [EvRand (next_value (w_rng w))])
           (w_hit w)
           (w_timeline w ++ [Call (EvRand (next_value (w_rng w)))])).
Proof.
  unfold std_rand, next_value, next_state.
  destruct (rand (w_rng w)); reflexivity.
Qed.

Lemma NextRandom3_run (w : World) :
  NextRandom3 w =
  (sample_vector (w_rng w),
   mkWorld (advance 3 (w_rng w)) (w_engine w) (w_clock w) (w_vertices w)
           (w_indices w) (w_stdout w)
           (w_events w ++ map EvRand (draws 3 (w_rng w)))
           (w_hit w)
           (w_timeline w ++ map Call (map EvRand (draws 3 (w_rng w))))).
Proof.
  unfold NextRandom3.
  do 3 run_step std_rand_run.
  unfold ret, sample_vector. cbn [advance draws map].
  rewrite <- !app_assoc. reflexivity.
Qed.

Lemma call_TraceSingle_run (h : Z) (ray : Ray) (hit : Hit) (w : World) :
  call_TraceSingle h ray hit w =
  (fst (TraceSingle h ray hit (w_engine w)),
   mkWorld (w_rng w) (snd (TraceSingle h ray hit (w_engine w))) (w_clock w)
           (w_vertices w) (w_indices w) (w_stdout w)
           (w_events w ++ [EvTraceSingle h ray hit])
           (w_hit w)
           (w_timeline w ++ [Call (EvTraceSingle h ray hit)])).
Proof.
  unfold call_TraceSingle.
  destruct (TraceSingle h ray hit (w_engine w)); reflexivity.
Qed.

Lemma trace_iteration_exec (h : Z) (w : World) :
  exec (trace_iteration h) w =
  mkWorld (advance 6 (w_rng w))
          (snd (query h (w_rng w) (w_engine w) (w_hit w)))
          (w_clock w) (w_vertices w) (w_indices w) (w_stdout w)
          (w_events w ++ iterA_events h (w_rng w) (w_hit w))
          (fst (query h (w_rng w) (w_engine w) (w_hit w)))
          (w_timeline w ++ map Call (iterA_events h (w_rng w) (w_hit w))).
Proof.
  unfold exec, trace_iteration.
  do 2 run_step NextRandom3_run.
  unfold declare_hit at 1. run_prim.
  run_step call_TraceSingle_run.
  unfold write_hit at 1. run_prim.
  cbn [ret snd]. unfold iterA_events, query, sample_ray.
  change (draws 6 (w_rng w))
    with (draws 3 (w_rng w) ++ draws 3 (advance 3 (w_rng w))).
  rewrite !map_app, <- !app_assoc. reflexivity.
Qed.

Lemma rng_iteration_exec (w : World) :
  exec rng_iteration w =
  mkWorld (advance 6 (w_rng w)) (w_engine w) (w_clock w) (w_vertices w)
          (w_indices w) (w_stdout w) (w_events w ++ iterB_events (w_rng w))
          (w_hit w) (w_timeline w ++ map Call (iterB_events (w_rng w))).
Proof.
  unfold exec, rng_iteration.
  do 2 run_step NextRandom3_run.
  cbn [ret snd]. unfold iterB_events.
  change (draws 6 (w_rng w))
    with (draws 3 (w_rng w) ++ draws 3 (advance 3 (w_rng w))).
  rewrite !map_app, <- !app_assoc. reflexivity.
Qed.

(** *** Loops *)

Lemma for_exec (n : Z) (body : M unit) (w : World) :
  exec (for_ n body) w = Nat.iter (Z.to_nat n) (exec body) w.
Proof.
  unfold exec at 1, for_. cbn [snd].
  destruct n as [|p|p]; cbn [Z.iter Z.to_nat]; try reflexivity.
  apply Pos2Nat.inj_iter.
Qed.

Lemma iter_ext {A} (f g : A -> A) (n : nat) (x : A) :
  (forall y, f y = g y) -> Nat.iter n f x = Nat.iter n g x.
Proof.
  intro H. induction n as [|n IH]; [reflexivity|].
  rewrite !Nat.iter_succ, IH. apply H.
Qed.

Lemma iter_mul {A} (f : A -> A) (n k : nat) (x : A) :
  Nat.iter n (Nat.iter k f) x = Nat.iter (n * k) f x.
Proof.
  induction n as [|n IH]; [reflexivity|].
  rewrite Nat.iter_succ, IH.
  change (S n * k)%nat with (k + n * k)%nat.
  rewrite Nat.iter_add. reflexivity.
Qed.

Lemma nested_for_exec (n k : Z) (body : M unit) (w : World) :
  exec (for_ n (for_ k body)) w = Nat.iter (iterations n k) (exec body) w.
Proof.
  rewrite for_exec.
  rewrite (iter_ext _ (Nat.iter (Z.to_nat k) (exec body)))
    by (intro; apply for_exec).
  apply iter_mul.
Qed.

Lemma iter_trace_iteration (h : Z) (n : nat) (w : World) :
  Nat.iter n (exec (trace_iteration h)) w =
  mkWorld (advance (6 * n) (w_rng w))
          (engine_after h n (w_rng w) (w_engine w) (w_hit w))
          (w_clock w) (w_vertices w) (w_indices w) (w_stdout w)
          (w_events w ++ phaseA_events h n (w_rng w) (w_engine w) (w_hit w))
          (hit_after h n (w_rng w) (w_engine w) (w_hit w))
          (w_timeline w
           ++ map Call (phaseA_events h n (w_rng w) (w_engine w) (w_hit w))).
Proof.
  revert w. induction n as [|n IH]; intro w.
  - cbn. rewrite !app_nil_r. symmetry. apply world_eta.
  - rewrite Nat.iter_succ_r, IH, trace_iteration_exec.
    proj_world.
    replace (6 * S n)%nat with (6 + 6 * n)%nat by lia.
    rewrite advance_add. cbn [phaseA_events engine_after hit_after].
    rewrite map_app, <- !app_assoc. reflexivity.
Qed.

Lemma iter_rng_iteration (n : nat) (w : World) :
  Nat.iter n (exec rng_iteration) w =
  mkWorld (advance (6 * n) (w_rng w)) (w_engine w)
          (w_clock w) (w_vertices w) (w_indices w) (w_stdout w)
          (w_events w ++ phaseB_events n (w_rng w))
          (w_hit w) (w_timeline w ++ map Call (phaseB_events n (w_rng w))).
Proof.
  revert w. induction n as [|n IH]; intro w.
  - cbn. rewrite !app_nil_r. symmetry. apply world_eta.
  - rewrite Nat.iter_succ_r, IH, rng_iteration_exec.
    proj_world.
    replace (6 * S n)%nat with (6 + 6 * n)%nat by lia.
    rewrite advance_add. cbn [phaseB_events].
    rewrite map_app, <- !app_assoc. reflexivity.
Qed.

Lemma phaseA_run (h numTrials raysPerTrial : Z) (w : World) :
  phaseA h numTrials raysPerTrial w =
  (tt,
   let n := iterations numTrials raysPerTrial in
   mkWorld (advance (6 * n) (w_rng w))
           (engine_after h n (w_rng w) (w_engine w) (w_hit w))
           (w_clock w) (w_vertices w) (w_indices w) (w_stdout w)
           (w_events w ++ phaseA_events h n (w_rng w) (w_engine w) (w_hit w))
           (hit_after h n (w_rng w) (w_engine w) (w_hit w))
           (w_timeline w
            ++ map Call (phaseA_events h n (w_rng w) (w_engine w) (w_hit w)))).
Proof.
  cbv zeta. rewrite <- iter_trace_iteration, <- nested_for_exec.
  unfold phaseA, exec. 
  destruct (for_ numTrials (for_ raysPerTrial (trace_iteration h)) w)
    as [[] w'].
  reflexivity.
Qed.

Lemma phaseB_run (numTrials raysPerTrial : Z) (w : World) :
  phaseB numTrials raysPerTrial w =
  (tt,
   let n := iterations numTrials raysPerTrial in
   mkWorld (advance (6 * n) (w_rng w)) (w_engine w)
           (w_clock w) (w_vertices w) (w_indices w) (w_stdout w)
           (w_events w ++ phaseB_events n (w_rng w))
           (w_hit w) (w_timeline w ++ map Call (phaseB_events n (w_rng w)))).
Proof.
  cbv zeta. rewrite <- iter_rng_iteration, <- nested_for_exec.
  unfold phaseB, exec.
  destruct (for_ numTrials (for_ raysPerTrial rng_iteration) w) as [[] w'].
  reflexivity.
Qed.

(** *** The whole run *)

Lemma call_InitScene_run (w : World) :
  call_InitScene w =
  (scene_of w,
   mkWorld (w_rng w) (snd (InitScene (w_engine w))) (w_clock w)
           (w_vertices w) (w_indices w) (w_stdout w)
           (w_events w ++ [EvInitScene (scene_of w)])
           (w_hit w) (w_timeline w ++ [Call (EvInitScene (scene_of w))])).
Proof.
  unfold call_InitScene, scene_of.
  destruct (InitScene (w_engine w)); reflexivity.
Qed.

Lemma call_AddTriangleMesh_run (h : Z) (vs : list float) (nv : Z)
    (ix : list Z) (ni : Z) (w : World) :
  call_AddTriangleMesh h vs nv ix ni w =
  (fst (AddTriangleMesh h vs nv ix ni (w_engine w)),
   mkWorld (w_rng w) (snd (AddTriangleMesh h vs nv ix ni (w_engine w)))
           (w_clock w) (w_vertices w) (w_indices w) (w_stdout w)
           (w_events w
            ++ [EvAddTriangleMesh h vs nv ix ni
                  (fst (AddTriangleMesh h vs nv ix ni (w_engine w)))])
           (w_hit w)
           (w_timeline w
            ++ [Call (EvAddTriangleMesh h vs nv ix ni
                        (fst (AddTriangleMesh h vs nv ix ni (w_engine w))))])).
Proof.
  unfold call_AddTriangleMesh.
  destruct (AddTriangleMesh h vs nv ix ni (w_engine w)); reflexivity.
Qed.

Lemma run_benchmark_run (numTrials raysPerTrial : Z) (w : World) :
  run_benchmark numTrials raysPerTrial w =
  (0, final_world numTrials raysPerTrial w).
Proof.
  unfold run_benchmark.
  run_step call_InitScene_run.
  unfold init_vertices at 1. run_prim.
  unfold init_indices at 1. run_prim.
  unfold read_vertices at 1. run_prim.
  unfold read_indices at 1. run_prim.
  run_step call_AddTriangleMesh_run.
  unfold call_FinalizeScene, set_engine, log. run_prim.
  unfold std_srand, log. run_prim.
  unfold cout at 1. run_prim.
  unfold now at 1, log. run_prim.
  run_step phaseA_run. cbv zeta.
  unfold now at 1, log. run_prim.
  unfold cout at 1. run_prim.
  unfold now at 1, log. run_prim.
  run_step phaseB_run. cbv zeta.
  unfold now at 1, log. run_prim.
  unfold cout at 1. run_prim.
  unfold cout at 1. run_prim.
  unfold call_DeleteScene, set_engine, log. run_prim.
  unfold ret, final_world, final_engine, engine_ready, run_events, run_stdout,
    run_steps, setup_events, mesh_of, totalCost, rngCost, elapsedA, elapsedB.
  cbv zeta.
  change (array_count quad_vertices) with 12.
  change (array_count quad_indices) with 6.
  f_equal. f_equal.
  - rewrite <- !app_assoc. reflexivity.
  - rewrite <- !app_assoc. reflexivity.
  - cbn [map]. rewrite <- !app_assoc. reflexivity.
Qed.

End Run.

(** * Single-precision arithmetic

    What [SpecFloat] computes for the conversion of an [int] and for the
    quotient of two such conversions, at precision 24. *)

(** ** Digits and shifts *)

Lemma digits2_pos_spec (p : positive) :
  2 ^ (Zpos (digits2_pos p) - 1) <= Zpos p < 2 ^ Zpos (digits2_pos p).
Proof.
  induction p as [p IH|p IH|]; cbn [digits2_pos].
  1, 2: rewrite Pos2Z.inj_succ;
    replace (Z.succ (Zpos (digits2_pos p)) - 1)
      with (Z.succ (Zpos (digits2_pos p) - 1)) by lia;
    rewrite !Z.pow_succ_r by lia; lia.
  cbn. lia.
Qed.

Lemma Zdigits2_unique (m d : Z) :
  2 ^ (d - 1) <= m < 2 ^ d -> 1 <= d -> Zdigits2 m = d.
Proof.
  intros Hm Hd.
  assert (0 < 2 ^ (d - 1)) by (apply Z.pow_pos_nonneg; lia).
  destruct m as [|p|p]; try lia.
  cbn [Zdigits2]. pose proof (digits2_pos_spec p) as Hp.
  set (d' := Zpos (digits2_pos p)) in *.
  assert (Hd' : 1 <= d') by (subst d'; lia).
  destruct (Z.lt_trichotomy d' d) as [Hlt|[Heq|Hgt]];
    [exfalso|exact Heq|exfalso].
  - assert (2 ^ d' <= 2 ^ (d - 1)) by (apply Z.pow_le_mono_r; lia). lia.
  - assert (2 ^ d <= 2 ^ (d' - 1)) by (apply Z.pow_le_mono_r; lia). lia.
Qed.

Lemma shr_1_spec (m : Z) (r s : bool) :
  0 <= m ->
  shr_1 (Build_shr_record m r s) = Build_shr_record (m / 2) (Z.odd m) (r || s).
Proof.
  intro Hm. destruct m as [|p|p]; [reflexivity| |lia].
  destruct p as [p|p|]; cbn [shr_1 Z.odd].
  - f_equal. rewrite Pos2Z.inj_xI.
    Z.to_euclidean_division_equations; lia.
  - f_equal. rewrite Pos2Z.inj_xO.
    Z.to_euclidean_division_equations; lia.
  - reflexivity.
Qed.

Lemma iter_pos_nat {A} (f : A -> A) (p : positive) (x : A) :
  iter_pos f p x = Nat.iter (Pos.to_nat p) f x.
Proof.
  revert x. induction p as [p IH|p IH|]; intro x; cbn [iter_pos].
  - rewrite !IH, Pos2Nat.inj_xI.
    replace (S (2 * Pos.to_nat p))
      with (Pos.to_nat p + (Pos.to_nat p + 1))%nat by lia.
    rewrite !Nat.iter_add. reflexivity.
  - rewrite !IH, Pos2Nat.inj_xO.
    replace (2 * Pos.to_nat p)%nat
      with (Pos.to_nat p + Pos.to_nat p)%nat by lia.
    rewrite Nat.iter_add. reflexivity.
  - reflexivity.
Qed.

(** [k + 1] one-bit shifts of an exact mantissa. *)
Lemma iter_shr_1 (k : nat) (m : Z) :
  0 <= m ->
  Nat.iter (S k) shr_1 (Build_shr_record m false false) =
  Build_shr_record (m / 2 ^ Z.of_nat (S k))
                   (Z.odd (m / 2 ^ Z.of_nat k))
                   (negb (m mod 2 ^ Z.of_nat k =? 0)).
Proof.
  intro Hm. induction k as [|k IH].
  - cbn [Nat.iter nat_rect]. rewrite shr_1_spec by exact Hm.
    change (2 ^ Z.of_nat 0) with 1. change (2 ^ Z.of_nat 1) with 2.
    rewrite Z.div_1_r, Z.mod_1_r. reflexivity.
  - rewrite Nat.iter_succ, IH.
    assert (Hp : 0 < 2 ^ Z.of_nat k) by (apply Z.pow_pos_nonneg; lia).
    assert (Hp1 : 2 ^ Z.of_nat (S k) = 2 ^ Z.of_nat k * 2)
      by (rewrite Nat2Z.inj_succ, Z.pow_succ_r by lia; lia).
    rewrite shr_1_spec by (apply Z.div_pos; lia).
    f_equal.
    + rewrite Z.div_div by lia.
      rewrite (Nat2Z.inj_succ (S k)), Z.pow_succ_r by lia.
      f_equal. lia.
    + rewrite Hp1, Z.rem_mul_r by lia.
      rewrite Zmod_odd.
      destruct (Z.odd (m / 2 ^ Z.of_nat k)); cbn [orb].
      * pose proof (Z.mod_pos_bound m (2 ^ Z.of_nat k) Hp).
        symmetry. apply negb_true_iff, Z.eqb_neq. lia.
      * f_equal. f_equal. lia.
Qed.

(** ** Rounding a 24-bit mantissa *)

Lemma fexp32 (x : Z) : -125 <= x -> fexp 24 128 x = x - 24.
Proof. intro H. unfold fexp, emin. lia. Qed.

Lemma loc_of_shr_record_of_loc (m : Z) (l : location) :
  loc_of_shr_record (shr_record_of_loc m l) = l.
Proof. destruct l as [|[]]; reflexivity. Qed.

Lemma shr_m_of_loc (m : Z) (l : location) : shr_m (shr_record_of_loc m l) = m.
Proof. destruct l as [|[]]; reflexivity. Qed.

Lemma round_nearest_even_bounds (m : Z) (l : location) :
  m <= round_nearest_even m l <= m + 1.
Proof.
  destruct l as [|[]]; cbn [round_nearest_even]; try lia.
  destruct (Z.even m); lia.
Qed.

(** The number of bits the first stage of a rounding drops. *)
Lemma shr_fexp32 (m e k : Z) (l : location) :
  0 <= k -> 2 ^ (23 + k) <= m < 2 ^ (24 + k) -> -149 <= e ->
  shr_fexp 24 128 m e l = shr (shr_record_of_loc m l) e k.
Proof.
  intros Hk Hm He. unfold shr_fexp.
  rewrite (Zdigits2_unique m (24 + k))
    by (replace (24 + k - 1) with (23 + k) by lia; lia).
  rewrite fexp32 by lia. f_equal. lia.
Qed.

Lemma round_aux_tail (m e : Z) (l : location) (mrs : shr_record) (e' : Z) :
  shr_fexp 24 128 m e l = (mrs, e') ->
  2 ^ 23 <= shr_m mrs < 2 ^ 24 -> -149 <= e' <= 103 ->
  binary_round_aux 24 128 false m e l =
  let m' := round_nearest_even (shr_m mrs) (loc_of_shr_record mrs) in
  if m' =? 2 ^ 24 then S754_finite false 8388608 (e' + 1)
  else S754_finite false (Z.to_pos m') e'.
Proof.
  intros Hs Hm He. unfold binary_round_aux. rewrite Hs. cbv zeta.
  pose proof (round_nearest_even_bounds (shr_m mrs) (loc_of_shr_record mrs))
    as Hb.
  set (m' := round_nearest_even (shr_m mrs) (loc_of_shr_record mrs)) in *.
  destruct (Z.eqb_spec m' (2 ^ 24)) as [Heq|Hne].
  - rewrite Heq.
    rewrite (shr_fexp32 _ e' 1) by (cbn; lia).
    cbn [shr_record_of_loc shr iter_pos shr_1 shr_m Z.pow Z.pow_pos Pos.iter
           Z.mul Pos.mul].
    replace (e' + 1 <=? 128 - 24) with true by (symmetry; apply Z.leb_le; lia).
    reflexivity.
  - rewrite (shr_fexp32 _ e' 0) by lia.
    cbn [shr shr_record_of_loc shr_m].
    destruct m' as [|p|p]; try lia.
    replace (e' <=? 128 - 24) with true by (symmetry; apply Z.leb_le; lia).
    reflexivity.
Qed.

(** ** Conversion of an integer *)

Lemma pos_iter_xO (p k : positive) :
  Zpos (Pos.iter xO p k) = Zpos p * 2 ^ Zpos k.
Proof.
  induction k as [|k IH] using Pos.peano_ind.
  - cbn [Pos.iter]. rewrite Pos2Z.inj_xO. change (2 ^ 1) with 2. lia.
  - rewrite Pos.iter_succ, Pos2Z.inj_xO, IH, Pos2Z.inj_succ, Z.pow_succ_r
      by lia.
    lia.
Qed.

Lemma of_int_small (r d : Z) :
  1 <= d <= 24 -> 2 ^ (d - 1) <= r < 2 ^ d ->
  float_of_int r = S754_finite false (Z.to_pos (r * 2 ^ (24 - d))) (d - 24).
Proof.
  intros Hd Hr.
  assert (Hpos : 0 < 2 ^ (d - 1)) by (apply Z.pow_pos_nonneg; lia).
  destruct r as [|p|p]; try lia.
  unfold float_of_int, f32_prec, f32_emax, binary_normalize, binary_round.
  pose proof (Zdigits2_unique (Zpos p) d Hr ltac:(lia)) as Hdig.
  cbn [Zdigits2] in Hdig. rewrite Hdig, Z.add_0_r, fexp32 by lia.
  assert (Hal : exists mz, shl_align p 0 (d - 24) = (mz, d - 24)
                           /\ Zpos mz = Zpos p * 2 ^ (24 - d)).
  { unfold shl_align. rewrite Z.sub_0_r.
    destruct (d - 24) as [|k|k] eqn:Hk; try lia.
    - exists p. split; [reflexivity|]. replace (24 - d) with 0 by lia. cbn; lia.
    - exists (Pos.iter xO p k). split; [reflexivity|].
      rewrite pos_iter_xO. f_equal. f_equal. lia. }
  destruct Hal as (mz & -> & Hmz).
  assert (Hb : 2 ^ 23 <= Zpos mz < 2 ^ 24).
  { rewrite Hmz.
    replace (2 ^ 23) with (2 ^ (d - 1) * 2 ^ (24 - d))
      by (rewrite <- Z.pow_add_r by lia; f_equal; lia).
    replace (2 ^ 24) with (2 ^ d * 2 ^ (24 - d))
      by (rewrite <- Z.pow_add_r by lia; f_equal; lia).
    assert (0 < 2 ^ (24 - d)) by (apply Z.pow_pos_nonneg; lia).
    nia. }
  rewrite (round_aux_tail _ _ _ (Build_shr_record (Zpos mz) false false)
             (d - 24)).
  - cbn [shr_m loc_of_shr_record round_nearest_even]. cbv zeta.
    destruct (Z.eqb_spec (Zpos mz) (2 ^ 24)) as [Heq|_]; [lia|].
    rewrite <- Hmz. reflexivity.
  - rewrite (shr_fexp32 _ _ 0) by lia. reflexivity.
  - exact Hb.
  - lia.
Qed.

Lemma shifted_location (r s : Z) :
  1 <= s -> 0 <= r ->
  round_nearest_even (r / 2 ^ s)
    (loc_of_shr_record
       (Build_shr_record (r / 2 ^ s) (Z.odd (r / 2 ^ (s - 1)))
                         (negb (r mod 2 ^ (s - 1) =? 0)))) =
  rne_div r s.
Proof.
  intros Hs Hr. unfold rne_div. cbv zeta.
  assert (Hh : 0 < 2 ^ (s - 1)) by (apply Z.pow_pos_nonneg; lia).
  assert (Hp : 2 ^ s = 2 ^ (s - 1) * 2).
  { replace s with (Z.succ (s - 1)) at 1 by lia.
    rewrite Z.pow_succ_r by lia. lia. }
  assert (Hrem : r mod 2 ^ s =
                 r mod 2 ^ (s - 1) + 2 ^ (s - 1) * ((r / 2 ^ (s - 1)) mod 2)).
  { rewrite Hp. apply Z.rem_mul_r; lia. }
  rewrite Zmod_odd in Hrem.
  pose proof (Z.mod_pos_bound r (2 ^ (s - 1)) Hh) as Ht.
  set (h := 2 ^ (s - 1)) in *. set (t := r mod h) in *.
  rewrite Hrem, Hp. clear Hrem.
  destruct (Z.odd (r / h)); cbn [loc_of_shr_record].
  - destruct (Z.eqb_spec t 0) as [Ht0|Ht0]; cbn [negb round_nearest_even].
    + destruct (Z.ltb_spec (2 * (t + h * 1)) (h * 2)); [lia|].
      destruct (Z.eqb_spec (2 * (t + h * 1)) (h * 2)); [|lia]. reflexivity.
    + destruct (Z.ltb_spec (2 * (t + h * 1)) (h * 2)); [lia|].
      destruct (Z.eqb_spec (2 * (t + h * 1)) (h * 2)); [lia|]. reflexivity.
  - destruct (Z.ltb_spec (2 * (t + h * 0)) (h * 2)); [|lia].
    destruct (t =? 0); reflexivity.
Qed.

Lemma of_int_large (r s : Z) :
  1 <= s <= 7 -> 2 ^ (23 + s) <= r < 2 ^ (24 + s) ->
  float_of_int r =
  let m' := rne_div r s in
  if m' =? 2 ^ 24 then S754_finite false 8388608 (s + 1)
  else S754_finite false (Z.to_pos m') s.
Proof.
  intros Hs Hr.
  assert (Hpos : 0 < 2 ^ (23 + s)) by (apply Z.pow_pos_nonneg; lia).
  destruct r as [|p|p]; try lia.
  unfold float_of_int, f32_prec, f32_emax, binary_normalize, binary_round.
  pose proof (Zdigits2_unique (Zpos p) (24 + s)) as Hdig.
  replace (24 + s - 1) with (23 + s) in Hdig by lia.
  specialize (Hdig Hr ltac:(lia)).
  cbn [Zdigits2] in Hdig. rewrite Hdig, Z.add_0_r, fexp32 by lia.
  replace (shl_align p 0 (24 + s - 24)) with (p, 0).
  2:{ unfold shl_align.
      destruct (24 + s - 24 - 0) eqn:E; try reflexivity; lia. }
  assert (Hshr : shr_fexp 24 128 (Zpos p) 0 loc_Exact =
                 (Build_shr_record (Zpos p / 2 ^ s)
                                   (Z.odd (Zpos p / 2 ^ (s - 1)))
                                   (negb (Zpos p mod 2 ^ (s - 1) =? 0)), s)).
  { rewrite (shr_fexp32 _ _ s) by lia.
    cbn [shr_record_of_loc]. unfold shr.
    destruct s as [|k|k]; try lia.
    rewrite iter_pos_nat.
    destruct (Pos2Nat.is_succ k) as [n Hn]. rewrite Hn.
    rewrite iter_shr_1 by lia.
    replace (Z.of_nat (S n)) with (Zpos k) by lia.
    replace (Z.of_nat n) with (Zpos k - 1) by lia.
    reflexivity. }
  rewrite (round_aux_tail _ _ _ _ _ Hshr).
  - cbn [shr_m]. rewrite shifted_location by lia. reflexivity.
  - cbn [shr_m].
    assert (0 < 2 ^ s) by (apply Z.pow_pos_nonneg; lia).
    rewrite !Z.pow_add_r in Hr by lia.
    split.
    + apply Z.div_le_lower_bound; lia.
    + apply Z.div_lt_upper_bound; lia.
  - lia.
Qed.

Lemma rne_div_bounds (r s : Z) :
  r / 2 ^ s <= rne_div r s <= r / 2 ^ s + 1.
Proof.
  unfold rne_div. cbv zeta.
  destruct (_ <? _); [lia|]. destruct (_ =? _); [|lia].
  destruct (Z.even _); lia.
Qed.

Lemma rne_div_mono (r1 r2 s : Z) :
  0 <= s -> r1 <= r2 -> rne_div r1 s <= rne_div r2 s.
Proof.
  intros Hs Hr.
  assert (HP : 0 < 2 ^ s) by (apply Z.pow_pos_nonneg; lia).
  pose proof (Z.div_le_mono r1 r2 (2 ^ s) HP Hr) as Hq.
  pose proof (rne_div_bounds r1 s) as H1.
  pose proof (rne_div_bounds r2 s) as H2.
  destruct (Z.eq_dec (r1 / 2 ^ s) (r2 / 2 ^ s)) as [Heq|Hne]; [|lia].
  clear H1 H2 Hq. unfold rne_div. cbv zeta.
  pose proof (Z.mod_eq r1 (2 ^ s) ltac:(lia)) as E1.
  pose proof (Z.mod_eq r2 (2 ^ s) ltac:(lia)) as E2.
  rewrite Heq in E1. rewrite Heq.
  set (P := 2 ^ s) in *. set (q := r2 / P) in *.
  set (a := r1 mod P) in *. set (b := r2 mod P) in *.
  assert (Hab : a <= b) by lia.
  destruct (Z.ltb_spec (2 * a) P), (Z.ltb_spec (2 * b) P); try lia;
    destruct (Z.eqb_spec (2 * a) P), (Z.eqb_spec (2 * b) P); try lia;
    destruct (Z.even q); lia.
Qed.

Lemma rounded_int_mono (r1 r2 : Z) :
  1 <= r1 -> r1 <= r2 -> rounded_int r1 <= rounded_int r2.
Proof.
  intros H1 H12. unfold rounded_int.
  destruct (Z.ltb_spec r2 (2 ^ 24)) as [Hs2|Hl2].
  - destruct (Z.ltb_spec r1 (2 ^ 24)); lia.
  - cbv zeta.
    pose proof (Z.log2_spec r2 ltac:(lia)) as L2.
    assert (Hlog2 : 24 <= Z.log2 r2) by (apply Z.log2_le_pow2; lia).
    remember (Z.log2 r2 - 23) as s2 eqn:Es2.
    replace (Z.log2 r2) with (23 + s2) in L2 by lia.
    assert (HP2 : 0 < 2 ^ s2) by (apply Z.pow_pos_nonneg; lia).
    assert (Hq2 : 2 ^ 23 <= r2 / 2 ^ s2).
    { apply Z.div_le_lower_bound; [lia|].
      rewrite Z.pow_add_r in L2 by lia. lia. }
    pose proof (rne_div_bounds r2 s2) as B2.
    assert (G2 : 2 ^ 23 * 2 ^ s2 <= rne_div r2 s2 * 2 ^ s2)
      by (apply Z.mul_le_mono_nonneg_r; lia).
    destruct (Z.ltb_spec r1 (2 ^ 24)) as [Hs1|Hl1].
    + assert (2 ^ 1 <= 2 ^ s2) by (apply Z.pow_le_mono_r; lia).
      change (2 ^ 1) with 2 in *. lia.
    + pose proof (Z.log2_spec r1 ltac:(lia)) as L1.
      assert (Hlog1 : 24 <= Z.log2 r1) by (apply Z.log2_le_pow2; lia).
      pose proof (Z.log2_le_mono r1 r2 H12) as Hmono.
      remember (Z.log2 r1 - 23) as s1 eqn:Es1.
      replace (Z.log2 r1) with (23 + s1) in L1 by lia.
      replace (Z.succ (23 + s1)) with (24 + s1) in L1 by lia.
      assert (HP1 : 0 < 2 ^ s1) by (apply Z.pow_pos_nonneg; lia).
      destruct (Z.eq_dec s1 s2) as [Heq|Hne].
      * rewrite Heq. apply Z.mul_le_mono_nonneg_r; [lia|].
        apply rne_div_mono; lia.
      * assert (Hq1 : r1 / 2 ^ s1 < 2 ^ 24).
        { apply Z.div_lt_upper_bound; [lia|].
          rewrite !Z.pow_add_r in L1 by lia. lia. }
        pose proof (rne_div_bounds r1 s1) as B1.
        assert (G1 : rne_div r1 s1 * 2 ^ s1 <= 2 ^ 24 * 2 ^ s1)
          by (apply Z.mul_le_mono_nonneg_r; lia).
        assert (HP : 2 ^ (s1 + 1) <= 2 ^ s2) by (apply Z.pow_le_mono_r; lia).
        rewrite Z.pow_add_r in HP by lia. change (2 ^ 1) with 2 in HP. lia.
Qed.

(** [(float) r] is a normal number whose value is [rounded_int r]. *)
Lemma float_of_int_pos (r : Z) :
  1 <= r < 2 ^ 31 ->
  exists m e,
    float_of_int r = S754_finite false m e
    /\ 2 ^ 23 <= Zpos m < 2 ^ 24
    /\ -23 <= e <= 8
    /\ Zpos m * 2 ^ (e + 23) = rounded_int r * 2 ^ 23.
Proof.
  intro Hr.
  pose proof (Z.log2_spec r ltac:(lia)) as L.
  assert (Hlog0 : 0 <= Z.log2 r) by apply Z.log2_nonneg.
  assert (Hlog : Z.log2 r < 31) by (apply Z.log2_lt_pow2; lia).
  unfold rounded_int.
  destruct (Z.ltb_spec r (2 ^ 24)) as [Hs|Hl].
  - assert (Hlog' : Z.log2 r < 24) by (apply Z.log2_lt_pow2; lia).
    remember (Z.log2 r + 1) as d eqn:Ed.
    assert (Hd : 2 ^ (d - 1) <= r < 2 ^ d).
    { replace (d - 1) with (Z.log2 r) by lia.
      replace d with (Z.succ (Z.log2 r)) by lia. exact L. }
    assert (P1 : 0 < 2 ^ (24 - d)) by (apply Z.pow_pos_nonneg; lia).
    assert (P2 : 0 < 2 ^ (d - 1)) by (apply Z.pow_pos_nonneg; lia).
    assert (E23 : 2 ^ (d - 1) * 2 ^ (24 - d) = 2 ^ 23)
      by (rewrite <- Z.pow_add_r by lia; f_equal; lia).
    assert (E24 : 2 ^ d * 2 ^ (24 - d) = 2 ^ 24)
      by (rewrite <- Z.pow_add_r by lia; f_equal; lia).
    exists (Z.to_pos (r * 2 ^ (24 - d))), (d - 24).
    rewrite Z2Pos.id by nia.
    split; [apply of_int_small; lia|].
    split; [nia|]. split; [lia|].
    replace (d - 24 + 23) with (d - 1) by lia.
    rewrite <- Z.mul_assoc, (Z.mul_comm (2 ^ (24 - d))), E23. reflexivity.
  - assert (Hlog' : 24 <= Z.log2 r) by (apply Z.log2_le_pow2; lia).
    cbv zeta. remember (Z.log2 r - 23) as s eqn:Es.
    replace (Z.log2 r) with (23 + s) in L by lia.
    replace (Z.succ (23 + s)) with (24 + s) in L by lia.
    assert (HP : 0 < 2 ^ s) by (apply Z.pow_pos_nonneg; lia).
    assert (Hq : 2 ^ 23 <= r / 2 ^ s < 2 ^ 24).
    { rewrite !Z.pow_add_r in L by lia. split.
      - apply Z.div_le_lower_bound; lia.
      - apply Z.div_lt_upper_bound; lia. }
    pose proof (rne_div_bounds r s) as B.
    rewrite (of_int_large r s) by lia. cbv zeta.
    destruct (Z.eqb_spec (rne_div r s) (2 ^ 24)) as [Heq|Hne].
    + exists 8388608%positive, (s + 1).
      split; [reflexivity|]. split; [cbn; lia|]. split; [lia|].
      rewrite Heq. replace (s + 1 + 23) with (1 + s + 23) by lia.
      rewrite !Z.pow_add_r by lia. lia.
    + exists (Z.to_pos (rne_div r s)), s.
      rewrite Z2Pos.id by lia.
      split; [reflexivity|]. split; [lia|]. split; [lia|].
      rewrite Z.pow_add_r by lia. lia.
Qed.

Lemma normal_order (m1 m2 e1 e2 : Z) :
  2 ^ 23 <= m1 < 2 ^ 24 -> 2 ^ 23 <= m2 < 2 ^ 24 ->
  -23 <= e1 -> -23 <= e2 ->
  m1 * 2 ^ (e1 + 23) <= m2 * 2 ^ (e2 + 23) ->
  e1 < e2 \/ (e1 = e2 /\ m1 <= m2).
Proof.
  intros H1 H2 He1 He2 H.
  assert (P2 : 0 < 2 ^ (e2 + 23)) by (apply Z.pow_pos_nonneg; lia).
  destruct (Z.lt_trichotomy e1 e2) as [Hlt|[Heq|Hgt]];
    [left; exact Hlt| |exfalso].
  - right. split; [exact Heq|]. subst e2. nia.
  - assert (2 ^ (e2 + 23 + 1) <= 2 ^ (e1 + 23)) by (apply Z.pow_le_mono_r; lia).
    rewrite (Z.pow_add_r 2 (e2 + 23) 1) in * by lia. change (2 ^ 1) with 2 in *.
    nia.
Qed.

(** ** Quotient of two normal numbers *)

Lemma div_eucl_div_mod (a b : Z) : Z.div_eucl a b = (a / b, a mod b).
Proof. unfold Z.div, Z.modulo. destruct (Z.div_eucl a b); reflexivity. Qed.

Lemma shr_1_of_loc (q : Z) (l : location) :
  0 <= q ->
  exists s,
    shr_1 (shr_record_of_loc q l) = Build_shr_record (q / 2) (Z.odd q) s.
Proof.
  intro Hq. destruct l as [|[]]; cbn [shr_record_of_loc];
    rewrite shr_1_spec by exact Hq; eexists; reflexivity.
Qed.

Lemma round_even_no_round_bit (m : Z) (s : bool) :
  round_nearest_even m (loc_of_shr_record (Build_shr_record m false s)) = m.
Proof. destruct s; reflexivity. Qed.

Lemma div_normal_le_one (m1 m2 : positive) (e1 e2 : Z) :
  2 ^ 23 <= Zpos m1 < 2 ^ 24 -> 2 ^ 23 <= Zpos m2 < 2 ^ 24 ->
  -23 <= e1 <= 8 -> -23 <= e2 <= 8 ->
  e1 < e2 \/ (e1 = e2 /\ Zpos m1 <= Zpos m2) ->
  exists m e,
    float_div (S754_finite false m1 e1) (S754_finite false m2 e2) =
    S754_finite false m e
    /\ (e < -23 \/ (e = -23 /\ m = 8388608%positive)).
Proof.
  intros H1 H2 He1 He2 Hle.
  unfold float_div, f32_prec, f32_emax, SFdiv, SFdiv_core_binary. cbn [xorb].
  rewrite !(Zdigits2_unique (Zpos _) 24) by (cbn; lia).
  rewrite fexp32 by lia.
  rewrite Z.min_l by lia.
  replace (e1 - e2 - (24 + e1 - (24 + e2) - 24)) with 24 by lia.
  replace (24 + e1 - (24 + e2) - 24) with (e1 - e2 - 24) by lia.
  rewrite Z.shiftl_mul_pow2 by lia.
  rewrite div_eucl_div_mod.
  remember (e1 - e2 - 24) as E eqn:HE.
  remember (Zpos m1 * 2 ^ 24 / Zpos m2) as q eqn:Hq.
  remember (new_location (Zpos m2) (Zpos m1 * 2 ^ 24 mod Zpos m2)) as l eqn:Hl.
  clear Hl.
  assert (Hqlo : 2 ^ 23 <= q).
  { subst q. apply Z.div_le_lower_bound; lia. }
  assert (Hqhi : q < 2 ^ 25).
  { subst q. apply Z.div_lt_upper_bound; lia. }
  assert (Hq24 : e1 = e2 -> q <= 2 ^ 24).
  { intro. subst q. apply Z.div_le_upper_bound; lia. }
  clear Hq.
  destruct (Z_lt_le_dec q (2 ^ 24)) as [Hsmall|Hbig].
  - rewrite (round_aux_tail q E l (shr_record_of_loc q l) E).
    + cbv zeta. rewrite shr_m_of_loc, loc_of_shr_record_of_loc.
      destruct (_ =? _); eexists; eexists; (split; [reflexivity|]); lia.
    + rewrite (shr_fexp32 _ _ 0) by lia. reflexivity.
    + rewrite shr_m_of_loc. lia.
    + lia.
  - destruct (shr_1_of_loc q l ltac:(lia)) as [s Hs].
    assert (Hhalf : 2 ^ 23 <= q / 2 < 2 ^ 24)
      by (split; [apply Z.div_le_lower_bound|apply Z.div_lt_upper_bound]; lia).
    rewrite (round_aux_tail q E l (Build_shr_record (q / 2) (Z.odd q) s)
               (E + 1)).
    + cbv zeta. cbn [shr_m].
      destruct (Z.eq_dec e1 e2) as [Heq|Hne].
      * assert (q = 2 ^ 24) by (specialize (Hq24 Heq); lia). subst q.
        change (Z.odd (2 ^ 24)) with false.
        rewrite round_even_no_round_bit.
        change (2 ^ 24 / 2 =? 2 ^ 24) with false. cbv iota.
        eexists; eexists; split; [reflexivity|].
        right. split; [lia|reflexivity].
      * destruct (_ =? _); eexists; eexists; (split; [reflexivity|]); lia.
    + rewrite (shr_fexp32 _ _ 1) by (change (2 ^ (23 + 1)) with (2 ^ 24);
        change (2 ^ (24 + 1)) with (2 ^ 25); lia).
      cbn [shr iter_pos]. rewrite Hs. reflexivity.
    + cbn [shr_m]. exact Hhalf.
    + lia.
Qed.


(** [(float) r / (float) M] for [0 <= r <= M]. *)
Lemma float_div_of_int_unit (M r : Z) :
  1 <= M < 2 ^ 31 -> 0 <= r <= M ->
  in_unit_closed (float_div (float_of_int r) (float_of_int M)).
Proof.
  intros HM Hr. unfold in_unit_closed.
  destruct (float_of_int_pos M HM) as (m2 & e2 & EM & Hm2 & He2 & V2).
  rewrite EM.
  destruct (Z.eq_dec r 0) as [->|Hnz].
  - split; reflexivity.
  - destruct (float_of_int_pos r ltac:(lia)) as (m1 & e1 & Er & Hm1 & He1 & V1).
    rewrite Er.
    pose proof (rounded_int_mono r M ltac:(lia) ltac:(lia)) as Hmono.
    assert (Hord : e1 < e2 \/ (e1 = e2 /\ Zpos m1 <= Zpos m2))
      by (apply normal_order; lia).
    destruct (div_normal_le_one m1 m2 e1 e2 Hm1 Hm2 He1 He2 Hord)
      as (m & e & -> & Hres).
    split; [reflexivity|].
    unfold float_leb, SFleb, float_one, SFcompare.
    destruct Hres as [Hlt|[-> ->]].
    + rewrite (proj2 (Z.compare_lt_iff e (-23)) Hlt). reflexivity.
    + reflexivity.
Qed.

(** * Properties of a run *)

Section Properties.

Context {LC : CStdlib} {RT : Raytrace} {CH : Chrono}.

Lemma skipn_length_app {A} (l r : list A) :
  skipn (List.length l) (l ++ r) = r.
Proof. induction l as [|a l IH]; [reflexivity|exact IH]. Qed.

Lemma exec_run_benchmark (numTrials raysPerTrial : Z) (w : World) :
  exec (run_benchmark numTrials raysPerTrial) w =
  final_world numTrials raysPerTrial w.
Proof. unfold exec. rewrite run_benchmark_run. reflexivity. Qed.

Lemma emitted_run_benchmark (numTrials raysPerTrial : Z) (w : World) :
  emitted (run_benchmark numTrials raysPerTrial) w =
  run_events numTrials raysPerTrial w.
Proof.
  unfold emitted. rewrite exec_run_benchmark. unfold final_world.
  cbn [w_events]. apply skipn_length_app.
Qed.

Lemma printed_run_benchmark (numTrials raysPerTrial : Z) (w : World) :
  printed (run_benchmark numTrials raysPerTrial) w = run_stdout numTrials w.
Proof.
  unfold printed. rewrite exec_run_benchmark. unfold final_world.
  cbn [w_stdout]. apply skipn_length_app.
Qed.

(** *** The calls of the two phases *)

Lemma count_app (p : Event -> bool) (l r : list Event) :
  count p (l ++ r) = (count p l + count p r)%nat.
Proof. unfold count. rewrite filter_app. apply length_app. Qed.

Lemma traced_rays_app (l r : list Event) :
  traced_rays (l ++ r) = traced_rays l ++ traced_rays r.
Proof.
  induction l as [|e l IH]; [reflexivity|].
  destruct e; cbn; rewrite ?IH; reflexivity.
Qed.


Lemma iterA_events_eq (h : Z) (s : rng) (hit : Hit) :
  iterA_events h s hit =
  iterB_events s ++ [EvTraceSingle h (sample_ray s) hit].
Proof. reflexivity. Qed.

Lemma filter_iterB (p : Event -> bool) (s : rng) :
  (forall r, p (EvRand r) = false) -> filter p (iterB_events s) = [].
Proof.
  intro Hr. unfold iterB_events.
  induction (draws 6 s) as [|r l IH]; [reflexivity|].
  cbn. rewrite Hr. exact IH.
Qed.

Lemma filter_phaseB_none (p : Event -> bool) (n : nat) (s : rng) :
  (forall r, p (EvRand r) = false) -> filter p (phaseB_events n s) = [].
Proof.
  intro Hr. revert s. induction n as [|n IH]; intro s; [reflexivity|].
  cbn [phaseB_events]. rewrite filter_app, filter_iterB, IH by exact Hr.
  reflexivity.
Qed.

Lemma filter_phaseA_none (p : Event -> bool) (h : Z) (n : nat) (s : rng)
    (e : engine) (hit : Hit) :
  (forall r, p (EvRand r) = false) ->
  (forall ray hit', p (EvTraceSingle h ray hit') = false) ->
  filter p (phaseA_events h n s e hit) = [].
Proof.
  intros Hr Ht. revert s e hit.
  induction n as [|n IH]; intros s e hit; [reflexivity|].
  cbn [phaseA_events]. rewrite iterA_events_eq, !filter_app, filter_iterB, IH
    by exact Hr.
  cbn. rewrite Ht. reflexivity.
Qed.

Lemma erase_trace_phaseA (h : Z) (n : nat) (s : rng)
    (e : engine) (hit : Hit) :
  filter (fun e => negb (is_trace e)) (phaseA_events h n s e hit) =
  phaseB_events n s.
Proof.
  revert s e hit. induction n as [|n IH]; intros s e hit; [reflexivity|].
  cbn [phaseA_events phaseB_events]. rewrite filter_app, IH.
  reflexivity.
Qed.

Lemma count_rand_phaseB (n : nat) (s : rng) :
  count is_rand (phaseB_events n s) = (6 * n)%nat.
Proof.
  revert s. induction n as [|n IH]; intro s; [reflexivity|].
  cbn [phaseB_events]. rewrite count_app, IH.
  change (count is_rand (iterB_events s)) with 6%nat. lia.
Qed.

Lemma count_rand_phaseA (h : Z) (n : nat) (s : rng)
    (e : engine) (hit : Hit) :
  count is_rand (phaseA_events h n s e hit) = (6 * n)%nat.
Proof.
  revert s e hit. induction n as [|n IH]; intros s e hit; [reflexivity|].
  cbn [phaseA_events]. rewrite count_app, IH.
  change (count is_rand (iterA_events h s hit)) with 6%nat. lia.
Qed.

Lemma count_trace_phaseA (h : Z) (n : nat) (s : rng)
    (e : engine) (hit : Hit) :
  count is_trace (phaseA_events h n s e hit) = n.
Proof.
  revert s e hit. induction n as [|n IH]; intros s e hit; [reflexivity|].
  cbn [phaseA_events]. rewrite count_app, IH. reflexivity.
Qed.

Lemma traced_rays_phaseA (h : Z) (n : nat) (s : rng)
    (e : engine) (hit : Hit) :
  traced_rays (phaseA_events h n s e hit) = rays_from n s.
Proof.
  revert s e hit. induction n as [|n IH]; intros s e hit; [reflexivity|].
  cbn [phaseA_events rays_from]. rewrite traced_rays_app, IH. reflexivity.
Qed.

Lemma traced_rays_phaseB (n : nat) (s : rng) :
  traced_rays (phaseB_events n s) = [].
Proof.
  revert s. induction n as [|n IH]; intro s; [reflexivity|].
  cbn [phaseB_events]. rewrite traced_rays_app, IH. reflexivity.
Qed.



Lemma handles_phaseA (h : Z) (n : nat) (s : rng) (eng : engine) (hit : Hit)
    (e : Event) (h' : Z) :
  In e (phaseA_events h n s eng hit) -> event_handle e = Some h' -> h' = h.
Proof.
  revert s eng hit. induction n as [|n IH]; intros s eng hit; [intros []|].
  cbn [phaseA_events]. rewrite in_app_iff. intros [Hin|Hin] He.
  - cbn in Hin.
    repeat (destruct Hin as [<-|Hin]; [cbn in He; congruence|]).
    destruct Hin.
  - eapply IH; eassumption.
Qed.

Lemma handles_phaseB (n : nat) (s : rng) (e : Event) (h' : Z) :
  In e (phaseB_events n s) -> event_handle e = Some h' -> False.
Proof.
  revert s. induction n as [|n IH]; intro s; [intros []|].
  cbn [phaseB_events]. rewrite in_app_iff. intros [Hin|Hin] He.
  - cbn in Hin.
    repeat (destruct Hin as [<-|Hin]; [cbn in He; congruence|]).
    destruct Hin.
  - eapply IH; eassumption.
Qed.


Lemma emitted_phaseA (h numTrials raysPerTrial : Z) (w : World) :
  emitted (phaseA h numTrials raysPerTrial) w =
  phaseA_events h (iterations numTrials raysPerTrial) (w_rng w)
                (w_engine w) (w_hit w).
Proof.
  unfold emitted, exec. rewrite phaseA_run. cbn [snd w_events].
  apply skipn_length_app.
Qed.

Lemma emitted_phaseB (numTrials raysPerTrial : Z) (w : World) :
  emitted (phaseB numTrials raysPerTrial) w =
  phaseB_events (iterations numTrials raysPerTrial) (w_rng w).
Proof.
  unfold emitted, exec. rewrite phaseB_run. cbn [snd w_events].
  apply skipn_length_app.
Qed.

Lemma emitted_seeded_phaseA (h numTrials raysPerTrial : Z) (w : World) :
  emitted (std_srand 1337 ;; phaseA h numTrials raysPerTrial) w =
  EvSrand 1337
  :: phaseA_events h (iterations numTrials raysPerTrial) (srand 1337)
       (w_engine w) (w_hit w).
Proof.
  unfold emitted, exec.
  erewrite bind_pair by reflexivity. rewrite phaseA_run.
  cbn [snd w_events w_rng log]. rewrite <- app_assoc.
  apply skipn_length_app.
Qed.

(** *** Arithmetic on [long long] *)

Lemma wrap64_small (x : Z) : - 2 ^ 63 <= x < 2 ^ 63 -> wrap64 x = x.
Proof.
  intro H. unfold wrap64.
  rewrite Z.mod_small by lia. lia.
Qed.

Lemma quot_rem_trunc (e n : Z) :
  1 <= n ->
  e = n * (e ÷ n) + Z.rem e n
  /\ (0 <= e -> 0 <= e ÷ n /\ 0 <= Z.rem e n < n)
  /\ (e < 0 -> e ÷ n <= 0 /\ - n < Z.rem e n <= 0).
Proof.
  intro Hn. split; [apply Z.quot_rem'|]. split; intro He.
  - split; [apply Z.quot_pos; lia|apply Z.rem_bound_pos; lia].
  - rewrite <- (Z.opp_involutive e), Z.quot_opp_l, Z.rem_opp_l by lia.
    pose proof (Z.quot_pos (- e) n ltac:(lia) ltac:(lia)).
    pose proof (Z.rem_bound_pos (- e) n ltac:(lia) ltac:(lia)).
    lia.
Qed.

Lemma quot_abs_bounds (e n : Z) :
  1 <= n ->
  Z.abs (n * (e ÷ n)) <= Z.abs e < Z.abs (n * (e ÷ n)) + n.
Proof.
  intro Hn.
  destruct (quot_rem_trunc e n Hn) as (H & Hp & Hm).
  destruct (Z_lt_le_dec e 0) as [Hneg|Hpos].
  - specialize (Hm Hneg). nia.
  - specialize (Hp Hpos). nia.
Qed.

Lemma div_ll_half_range (e n : Z) :
  - 2 ^ 63 <= e < 2 ^ 63 -> 2 <= n ->
  - 2 ^ 62 <= div_ll e n < 2 ^ 62.
Proof.
  intros He Hn. unfold div_ll.
  destruct (quot_rem_trunc e n ltac:(lia)) as (H & Hp & Hm).
  destruct (Z_lt_le_dec e 0) as [Hneg|Hpos].
  - specialize (Hm Hneg). nia.
  - specialize (Hp Hpos). nia.
Qed.

Lemma sub_ll_costs (numTrials : Z) (w : World) :
  2 <= numTrials ->
  sub_ll (totalCost numTrials w) (rngCost numTrials w) =
  totalCost numTrials w - rngCost numTrials w.
Proof.
  intro Hn. unfold sub_ll, totalCost, rngCost.
  pose proof (div_ll_half_range (elapsedA w) numTrials
                (duration_cast_ms_range _) Hn).
  pose proof (div_ll_half_range (elapsedB w) numTrials
                (duration_cast_ms_range _) Hn).
  apply wrap64_small. lia.
Qed.

(** C1.  What a run prints is the first line, then the average of the
    first phase [totalCost], then the average of the second phase
    [rngCost], then their difference [totalCost - rngCost] as an exact
    integer: it is neither clamped at zero nor otherwise changed, whatever
    its sign.  The difference is taken on [long long]; it is exact as soon
    as there are two trials ([main] runs ten), and with one trial whenever
    it fits in 64 bits. *)
Theorem C1_pure_cost_is_plain_difference
    (numTrials raysPerTrial : Z) (w : World) :
  2 <= numTrials
  \/ - 2 ^ 63 <= totalCost numTrials w - rngCost numTrials w < 2 ^ 63 ->
  printed (run_benchmark numTrials raysPerTrial) w =
  [ OStr "Tracing a million rays..."; OEndl;
    OStr "Done after "; OInt (totalCost numTrials w); OStr "ms."; OEndl;
    OStr "RNG overhead "; OInt (rngCost numTrials w); OStr "ms."; OEndl;
    OStr "Pure cost for tracing + overhead: ";
    OInt (totalCost numTrials w - rngCost numTrials w);
    OStr "ms."; OEndl ]
  /\ (totalCost numTrials w < rngCost numTrials w ->
      exists pure, pure < 0 /\
        In (OInt pure) (printed (run_benchmark numTrials raysPerTrial) w)).
Proof.
  intro Hn. rewrite printed_run_benchmark. unfold run_stdout.
  assert (Hsub : sub_ll (totalCost numTrials w) (rngCost numTrials w) =
                 totalCost numTrials w - rngCost numTrials w).
  { destruct Hn as [Hn|Hn]; [apply sub_ll_costs; exact Hn|].
    apply wrap64_small; exact Hn. }
  rewrite Hsub. split; [reflexivity|].
  intro Hlt. exists (totalCost numTrials w - rngCost numTrials w).
  split; [lia|]. cbn. tauto.
Qed.

(** C9.  A run returns [0], from every world and for every number of
    trials and of iterations; so does [main]. *)
Theorem C9_exit_code_zero (numTrials raysPerTrial : Z) (w : World) :
  result (run_benchmark numTrials raysPerTrial) w = 0
  /\ result main w = 0.
Proof.
  unfold main, result. rewrite !run_benchmark_run. split; reflexivity.
Qed.

(** C10.  The two averages a run prints are the truncated quotients of
    the elapsed milliseconds of each phase by [numTrials]: what is
    dropped is the remainder [Z.rem], smaller in absolute value than
    [numTrials] and of the sign of the elapsed time, so the average is
    never farther from zero than the exact quotient. *)
Theorem C10_averages_truncate (numTrials raysPerTrial : Z) (w : World) :
  1 <= numTrials ->
  let total := Z.quot (elapsedA w) numTrials in
  let rng := Z.quot (elapsedB w) numTrials in
  firstn 2 (printed_ints (printed (run_benchmark numTrials raysPerTrial) w))
    = [total; rng]
  /\ elapsedA w - numTrials * total = Z.rem (elapsedA w) numTrials
  /\ elapsedB w - numTrials * rng = Z.rem (elapsedB w) numTrials
  /\ Z.abs (numTrials * total) <= Z.abs (elapsedA w)
       < Z.abs (numTrials * total) + numTrials
  /\ Z.abs (numTrials * rng) <= Z.abs (elapsedB w)
       < Z.abs (numTrials * rng) + numTrials.
Proof.
  intros Hn total rng. subst total rng.
  rewrite printed_run_benchmark.
  split; [reflexivity|].
  pose proof (Z.quot_rem' (elapsedA w) numTrials) as HA.
  pose proof (Z.quot_rem' (elapsedB w) numTrials) as HB.
  split; [lia|]. split; [lia|].
  split; apply quot_abs_bounds; exact Hn.
Qed.

(** *** Seeding and the sampled rays *)

(** C2.  A run seeds the generator with 1337 after the scene is set up,
    immediately before the first reading of the clock, before any value
    is drawn or any ray traced, and never seeds it again.  The rays of a
    first phase that follows a seeding with 1337 are the same from any
    two worlds (whatever the earlier state of the generator, the engine,
    its answers, the handle or the clock), and so are the rays of any
    two whole runs: they are the rays sampled from the state
    [srand 1337]. *)
Theorem C2_seeded_rays_reproducible
    (numTrials raysPerTrial h1 h2 : Z) (w1 w2 : World) :
  (exists post,
      emitted (run_benchmark numTrials raysPerTrial) w1 =
      setup_events w1 ++ EvSrand 1337 :: EvNow (w_clock w1 0%nat) :: post
      /\ count is_srand post = 0%nat)
  /\ traced_rays
       (emitted (std_srand 1337 ;; phaseA h1 numTrials raysPerTrial) w1) =
     traced_rays
       (emitted (std_srand 1337 ;; phaseA h2 numTrials raysPerTrial) w2)
  /\ traced_rays (emitted (run_benchmark numTrials raysPerTrial) w1) =
     traced_rays (emitted (run_benchmark numTrials raysPerTrial) w2)
  /\ traced_rays (emitted (run_benchmark numTrials raysPerTrial) w1) =
     rays_from (iterations numTrials raysPerTrial) (srand 1337).
Proof.
  assert (Hrun : forall w,
             traced_rays (emitted (run_benchmark numTrials raysPerTrial) w) =
             rays_from (iterations numTrials raysPerTrial) (srand 1337)).
  { intro w. rewrite emitted_run_benchmark. unfold run_events, setup_events.
    cbv zeta. rewrite !traced_rays_app, traced_rays_phaseA, traced_rays_phaseB.
    cbn. apply app_nil_r. }
  split; [|split; [|split]].
  - rewrite emitted_run_benchmark. unfold run_events. cbv zeta.
    eexists. split; [reflexivity|].
    rewrite !count_app. unfold count.
    rewrite filter_phaseA_none, filter_phaseB_none by reflexivity.
    reflexivity.
  - rewrite !emitted_seeded_phaseA. cbn [traced_rays].
    rewrite !traced_rays_phaseA. reflexivity.
  - rewrite !Hrun. reflexivity.
  - apply Hrun.
Qed.

(** *** The scene *)

(** C4, as the code has it.  A run registers one mesh, once: the call
    receives the handle of the scene, the array [vertices] (twelve
    floats: four vertices of three coordinates) with the number of its
    floats, 12, and the array [indices] (six indices: two triangles)
    with the number of its indices, 6.  Both arrays hold at the end of
    the run what they were initialised with. *)
Theorem C4_mesh_registration (numTrials raysPerTrial : Z) (w : World) :
  filter is_add_mesh (emitted (run_benchmark numTrials raysPerTrial) w) =
  [ EvAddTriangleMesh (scene_of w)
      quad_vertices (Z.of_nat (List.length quad_vertices))
      quad_indices (Z.of_nat (List.length quad_indices))
      (mesh_of w) ]
  /\ List.length quad_vertices = (3 * 4)%nat
  /\ List.length quad_indices = (3 * 2)%nat
  /\ w_vertices (exec (run_benchmark numTrials raysPerTrial) w) = quad_vertices
  /\ w_indices (exec (run_benchmark numTrials raysPerTrial) w) = quad_indices.
Proof.
  rewrite emitted_run_benchmark, exec_run_benchmark.
  unfold run_events, setup_events. cbv zeta.
  rewrite !filter_app, filter_phaseA_none, filter_phaseB_none by reflexivity.
  repeat split; reflexivity.
Qed.

(** C5.  The calls of a run start with the creation of a scene and end
    with its destruction; there is no other creation and no other
    destruction, and every call to the engine carries the handle the
    creation returned. *)
Theorem C5_one_scene_one_handle (numTrials raysPerTrial : Z) (w : World) :
  let ev := emitted (run_benchmark numTrials raysPerTrial) w in
  let h := result call_InitScene w in
  count is_init ev = 1%nat
  /\ count is_delete ev = 1%nat
  /\ (exists mid, ev = EvInitScene h :: mid ++ [EvDeleteScene h])
  /\ (forall e h', In e ev -> event_handle e = Some h' -> h' = h).
Proof.
  cbv zeta.
  replace (result call_InitScene w) with (scene_of w)
    by (unfold result; rewrite call_InitScene_run; reflexivity).
  rewrite emitted_run_benchmark. unfold run_events, setup_events. cbv zeta.
  split; [|split; [|split]].
  - rewrite !count_app. unfold count.
    rewrite filter_phaseA_none, filter_phaseB_none by reflexivity.
    reflexivity.
  - rewrite !count_app. unfold count.
    rewrite filter_phaseA_none, filter_phaseB_none by reflexivity.
    reflexivity.
  - exists ([ EvAddTriangleMesh (scene_of w) quad_vertices 12 quad_indices 6
                               (mesh_of w);
             EvFinalizeScene (scene_of w);
             EvSrand 1337; EvNow (w_clock w 0%nat) ]
           ++ phaseA_events (scene_of w)
                (iterations numTrials raysPerTrial) (srand 1337)
                (engine_ready w) (w_hit w)
           ++ [EvNow (w_clock w 1%nat); EvNow (w_clock w 2%nat)]
           ++ phaseB_events (iterations numTrials raysPerTrial)
                (advance (6 * iterations numTrials raysPerTrial) (srand 1337))
           ++ [EvNow (w_clock w 3%nat)]).
    rewrite <- !app_assoc. reflexivity.
  - intros e h' Hin He.
    repeat (rewrite in_app_iff in Hin).
    destruct Hin as [Hin|[Hin|[Hin|[Hin|[Hin|Hin]]]]].
    + cbn in Hin.
      repeat (destruct Hin as [<-|Hin]; [cbn in He; congruence|]).
      destruct Hin.
    + cbn in Hin.
      repeat (destruct Hin as [<-|Hin]; [cbn in He; congruence|]).
      destruct Hin.
    + eapply handles_phaseA; eassumption.
    + cbn in Hin.
      repeat (destruct Hin as [<-|Hin]; [cbn in He; congruence|]).
      destruct Hin.
    + exfalso. eapply handles_phaseB; eassumption.
    + cbn in Hin.
      repeat (destruct Hin as [<-|Hin]; [cbn in He; congruence|]).
      destruct Hin.
Qed.

(** C6.  The calls of a run split at the one finalisation and at the one
    destruction: no query comes before the finalisation, the
    destruction is the last call, and all the queries (one for each
    iteration of the first phase) lie between the two. *)
Theorem C6_queries_between_finalize_and_delete
    (numTrials raysPerTrial : Z) (w : World) :
  exists pre mid,
    emitted (run_benchmark numTrials raysPerTrial) w =
    pre ++ EvFinalizeScene (scene_of w) :: mid ++ [EvDeleteScene (scene_of w)]
    /\ count is_trace pre = 0%nat
    /\ count is_finalize pre = 0%nat
    /\ count is_delete pre = 0%nat
    /\ count is_finalize mid = 0%nat
    /\ count is_delete mid = 0%nat
    /\ count is_trace mid = iterations numTrials raysPerTrial.
Proof.
  rewrite emitted_run_benchmark. unfold run_events, setup_events. cbv zeta.
  exists [ EvInitScene (scene_of w);
           EvAddTriangleMesh (scene_of w) quad_vertices 12 quad_indices 6
                             (mesh_of w) ].
  exists ([EvSrand 1337; EvNow (w_clock w 0%nat)]
          ++ phaseA_events (scene_of w) (iterations numTrials raysPerTrial)
               (srand 1337) (engine_ready w) (w_hit w)
          ++ [EvNow (w_clock w 1%nat); EvNow (w_clock w 2%nat)]
          ++ phaseB_events (iterations numTrials raysPerTrial)
               (advance (6 * iterations numTrials raysPerTrial) (srand 1337))
          ++ [EvNow (w_clock w 3%nat)]).
  split.
  - rewrite <- !app_assoc. reflexivity.
  - do 3 (split; [reflexivity|]).
    rewrite !count_app, count_trace_phaseA. unfold count.
    rewrite !filter_phaseA_none, !filter_phaseB_none by reflexivity.
    cbn. repeat split; lia.
Qed.

(** *** The two phases *)

(** C7.  From the same world, an iteration of the second phase makes
    the six draws of an iteration of the first phase, with the same
    values, and nothing else: its calls are those of the first phase
    with the query erased, it leaves the generator in the same state
    and does not touch the engine.  The same holds of the whole
    phases.  In a run the two phases have the same number of
    iterations: the second makes as many draws as the first and no
    query. *)
Theorem C7_rng_phase_mirrors_trace_phase
    (h numTrials raysPerTrial : Z) (w : World) :
  let n := iterations numTrials raysPerTrial in
  let erase := filter (fun e => negb (is_trace e)) in
  (emitted rng_iteration w = map EvRand (draws 6 (w_rng w))
   /\ emitted rng_iteration w = erase (emitted (trace_iteration h) w)
   /\ w_rng (exec rng_iteration w) = w_rng (exec (trace_iteration h) w)
   /\ w_engine (exec rng_iteration w) = w_engine w)
  /\ (emitted (phaseB numTrials raysPerTrial) w =
        erase (emitted (phaseA h numTrials raysPerTrial) w)
      /\ w_rng (exec (phaseB numTrials raysPerTrial) w) =
         w_rng (exec (phaseA h numTrials raysPerTrial) w)
      /\ w_engine (exec (phaseB numTrials raysPerTrial) w) = w_engine w
      /\ count is_trace (emitted (phaseB numTrials raysPerTrial) w) = 0%nat
      /\ count is_rand (emitted (phaseB numTrials raysPerTrial) w) = (6 * n)%nat
      /\ count is_rand (emitted (phaseA h numTrials raysPerTrial) w) = (6 * n)%nat
      /\ count is_trace (emitted (phaseA h numTrials raysPerTrial) w) = n)
  /\ (exists pre mid post sA sB,
        emitted (run_benchmark numTrials raysPerTrial) w =
        pre ++ phaseA_events (scene_of w) n sA (engine_ready w) (w_hit w)
            ++ mid ++ phaseB_events n sB ++ post
        /\ count is_rand (pre ++ mid ++ post) = 0%nat
        /\ count is_trace (pre ++ mid ++ post) = 0%nat).
Proof.
  cbv zeta. split; [|split].
  - unfold emitted. rewrite rng_iteration_exec, trace_iteration_exec.
    cbn [w_events w_rng w_engine]. rewrite !skipn_length_app.
    repeat split; reflexivity.
  - rewrite emitted_phaseA, emitted_phaseB, erase_trace_phaseA.
    unfold exec. rewrite phaseA_run, phaseB_run. cbn [snd w_rng w_engine].
    rewrite count_rand_phaseA, count_rand_phaseB, count_trace_phaseA.
    unfold count. rewrite filter_phaseB_none by reflexivity.
    repeat split; reflexivity.
  - rewrite emitted_run_benchmark. unfold run_events. cbv zeta.
    exists (setup_events w ++ [EvSrand 1337; EvNow (w_clock w 0%nat)]).
    exists [EvNow (w_clock w 1%nat); EvNow (w_clock w 2%nat)].
    exists [EvNow (w_clock w 3%nat); EvDeleteScene (scene_of w)].
    exists (srand 1337).
    exists (advance (6 * iterations numTrials raysPerTrial) (srand 1337)).
    split; [rewrite <- !app_assoc; reflexivity|].
    split; reflexivity.
Qed.





(** *** The sampled vectors *)

Lemma rand_to_float_unit (r : Z) :
  0 <= r <= RAND_MAX -> in_unit_closed (rand_to_float r).
Proof.
  intro Hr. unfold rand_to_float.
  pose proof RAND_MAX_min. pose proof RAND_MAX_int.
  apply float_div_of_int_unit; lia.
Qed.

(** C3, as the code has it.  From every world, each of the three
    components of the vector [NextRandom3] returns is at least [0.0f]
    and at most [1.0f]: the closed interval, since a draw equal to
    [RAND_MAX] gives [1.0f]. *)
Theorem C3_components_in_closed_unit_interval (w : World) :
  let v := result NextRandom3 w in
  in_unit_closed (vx v) /\ in_unit_closed (vy v) /\ in_unit_closed (vz v).
Proof.
  cbv zeta. unfold result. rewrite NextRandom3_run.
  cbn [fst sample_vector vx vy vz]. unfold next_value.
  repeat split; apply rand_to_float_unit; apply rand_range.
Qed.

End Properties.

(** * The properties on the concrete platform *)

(** At the seed 24884 the first draw of the example generator is
    [RAND_MAX]: the first component of the vector is [1.0f], which is not
    below [1.0f]. *)
Lemma C3_counterexample :
  let w := @mkWorld example_stdlib counting_engine
                    (@srand example_stdlib 24884) 0 example_clock [] [] [] []
                    false [] in
  let v := result (@NextRandom3 example_stdlib counting_engine) w in
  @next_value example_stdlib (@srand example_stdlib 24884) = @RAND_MAX example_stdlib
  /\ vx v = float_one
  /\ ~ in_unit_half_open (vx v).
Proof.
  cbv zeta. split; [reflexivity|]. split; [vm_compute; reflexivity|].
  unfold in_unit_half_open. vm_compute. intros [_ H]. discriminate H.
Qed.

(** [main] on the example world: the count handed over with the twelve
    floats of the vertex buffer is 12, not the number 4 of its vertices. *)
Lemma C4_counterexample :
  exists h vs nv ix ni id,
    In (EvAddTriangleMesh h vs nv ix ni id)
       (emitted (@main example_stdlib counting_engine nanosecond_chrono)
                example_world)
    /\ Z.of_nat (List.length vs) = 3 * 4
    /\ nv <> 4.
Proof.
  unfold main. rewrite emitted_run_benchmark.
  exists 4096, (@quad_vertices), 12, quad_indices, 6, 0.
  split; [|split; [reflexivity|discriminate]].
  unfold run_events. cbv zeta. apply in_or_app. left.
  right. left. reflexivity.
Qed.


(** [main] on the example world prints the averages 0 and 3 and the pure
    cost -3. *)
Lemma C1_witness :
  2 <= 10 /\
  printed (@main example_stdlib counting_engine nanosecond_chrono)
          example_world =
  [ OStr "Tracing a million rays..."; OEndl;
    OStr "Done after "; OInt 0; OStr "ms."; OEndl;
    OStr "RNG overhead "; OInt 3; OStr "ms."; OEndl;
    OStr "Pure cost for tracing + overhead: "; OInt (-3); OStr "ms."; OEndl ].
Proof.
  split; [lia|].
  apply (@C1_pure_cost_is_plain_difference
           example_stdlib counting_engine nanosecond_chrono
           10 1000000 example_world).
  left. lia.
Defined.

(** [main] on the example world: 7 ms and 38 ms over ten trials are
    reported as 0 and 3. *)
Lemma C10_witness :
  1 <= 10 /\
  firstn 2 (printed_ints
              (printed (@main example_stdlib counting_engine nanosecond_chrono)
                       example_world)) = [0; 3].
Proof.
  split; [lia|].
  apply (@C10_averages_truncate
           example_stdlib counting_engine nanosecond_chrono
           10 1000000 example_world); lia.
Defined.

(** ** The embedding, evaluated *)

(** A run of one trial of two iterations, evaluated step by step, makes
    the calls of the closed form. *)
Example small_run_calls :
  emitted (@run_benchmark example_stdlib counting_engine nanosecond_chrono 1 2)
          example_world =
  @run_events example_stdlib counting_engine 1 2 example_world.
Proof. vm_compute. reflexivity. Qed.

(** Its calls, without their arguments. *)
Example small_run_shape :
  map (fun e => match e with
                | EvInitScene _ => "InitScene"
                | EvAddTriangleMesh _ _ _ _ _ _ => "AddTriangleMesh"
                | EvFinalizeScene _ => "FinalizeScene"
                | EvTraceSingle _ _ _ => "TraceSingle"
                | EvDeleteScene _ => "DeleteScene"
                | EvSrand _ => "srand"
                | EvRand _ => "rand"
                | EvNow _ => "now"
                end%string)
      (emitted (@run_benchmark example_stdlib counting_engine nanosecond_chrono 1 2)
               example_world) =
  [ "InitScene"; "AddTriangleMesh"; "FinalizeScene"; "srand"; "now";
    "rand"; "rand"; "rand"; "rand"; "rand"; "rand"; "TraceSingle";
    "rand"; "rand"; "rand"; "rand"; "rand"; "rand"; "TraceSingle";
    "now"; "now";
    "rand"; "rand"; "rand"; "rand"; "rand"; "rand";
    "rand"; "rand"; "rand"; "rand"; "rand"; "rand";
    "now"; "DeleteScene" ]%string.
Proof. vm_compute. reflexivity. Qed.

(** The records handed to the three queries of a run of three iterations,
    from a world whose storage holds [false] and from one whose storage
    holds [true]: the engine leaves [true] in the record of each query. *)
Example small_run_hits :
  traced_hits
    (emitted (@run_benchmark example_stdlib counting_engine nanosecond_chrono 1 3)
             example_world) = [false; true; true]
  /\ traced_hits
       (emitted (@run_benchmark example_stdlib counting_engine nanosecond_chrono 1 3)
                other_world) = [true; true; true].
Proof. split; vm_compute; reflexivity. Qed.

(** The console writes of a small run among its calls. *)
Example small_run_steps :
  map (fun st => match st with
                 | Call (EvNow _) => "now"
                 | Call (EvTraceSingle _ _ _) => "TraceSingle"
                 | Call (EvRand _) => "rand"
                 | Call _ => "call"
                 | Write _ => "cout"
                 end%string)
      (steps (@run_benchmark example_stdlib counting_engine nanosecond_chrono 1 1)
             example_world) =
  [ "call"; "call"; "call"; "call"; "cout"; "now";
    "rand"; "rand"; "rand"; "rand"; "rand"; "rand"; "TraceSingle";
    "now"; "cout"; "now";
    "rand"; "rand"; "rand"; "rand"; "rand"; "rand";
    "now"; "cout"; "cout"; "call" ]%string.
Proof. vm_compute. reflexivity. Qed.

(** The first ray after the seeding with 1337, from two different worlds:
    the draws 1199, 22292, 14258 make the origin. *)
Example first_ray :
  traced_rays
    (emitted (@run_benchmark example_stdlib counting_engine nanosecond_chrono 1 1)
             example_world) =
  [ mkRay (mkVector3 (S754_finite false 9822508 (-28))
                     (S754_finite false 11413852 (-24))
                     (S754_finite false 14600638 (-25)))
          (mkVector3 (S754_finite false 15508953 (-24))
                     (S754_finite false 11268440 (-25))
                     (S754_finite false 15702495 (-25)))
          (S754_zero false) ]
  /\ traced_rays
       (emitted (@run_benchmark example_stdlib counting_engine nanosecond_chrono 1 1)
                other_world) =
     traced_rays
       (emitted (@run_benchmark example_stdlib counting_engine nanosecond_chrono 1 1)
                example_world).
Proof. split; vm_compute; reflexivity. Qed.

(** Conversions and quotients: [1/3]; a tie rounded to even; and, where
    [RAND_MAX] is [2^31 - 1], a draw 47 below [RAND_MAX] that already gives
    [1.0f], because both convert to [2^31]. *)
Example float_samples :
  float_div (float_of_int 1) (float_of_int 3) = S754_finite false 11184811 (-25)
  /\ float_of_int 16777217 = S754_finite false 8388608 1
  /\ float_of_int 2147483647 = S754_finite false 8388608 8
  /\ float_div (float_of_int 2147483600) (float_of_int 2147483647) = float_one.
Proof. repeat split; vm_compute; reflexivity. Qed.

(** * Further properties *)

(** ** More on the quotient of two normal numbers *)

Lemma round_up_new_location (D r q : Z) :
  0 < D -> 0 <= r < D ->
  round_nearest_even q (new_location D r) = q + 1 -> D <= 2 * r.
Proof.
  intros HD Hr. unfold new_location, new_location_even, new_location_odd.
  destruct (Z.even D).
  - destruct (Z.eqb_spec r 0); cbn [round_nearest_even]; [lia|].
    destruct (Z.compare_spec (2 * r) D); cbn [round_nearest_even];
      try lia.
  - destruct (Z.eqb_spec r 0); cbn [round_nearest_even]; [lia|].
    destruct (Z.compare_spec (2 * r + 1) D); cbn [round_nearest_even];
      try lia.
Qed.

Lemma round_up_round_bit (m : Z) (rb st : bool) :
  round_nearest_even m (loc_of_shr_record (Build_shr_record m rb st)) = m + 1 ->
  rb = true.
Proof.
  destruct rb; [reflexivity|].
  destruct st; cbn [loc_of_shr_record round_nearest_even]; lia.
Qed.

Lemma div_normal_spec (m1 m2 : positive) (e1 e2 : Z) :
  2 ^ 23 <= Zpos m1 < 2 ^ 24 -> 2 ^ 23 <= Zpos m2 < 2 ^ 24 ->
  -23 <= e1 <= 8 -> -23 <= e2 <= 8 ->
  e1 < e2 \/ (e1 = e2 /\ Zpos m1 <= Zpos m2) ->
  exists m e,
    float_div (S754_finite false m1 e1) (S754_finite false m2 e2) =
    S754_finite false m e
    /\ 2 ^ 23 <= Zpos m < 2 ^ 24
    /\ -55 <= e
    /\ ((e = -23 /\ m = 8388608%positive /\ e1 = e2 /\ m1 = m2)
        \/ (e < -23 /\ (e1 < e2 \/ Zpos m1 < Zpos m2))).
Proof.
  intros H1 H2 He1 He2 Hle.
  unfold float_div, f32_prec, f32_emax, SFdiv, SFdiv_core_binary. cbn [xorb].
  rewrite !(Zdigits2_unique (Zpos _) 24) by (cbn; lia).
  rewrite fexp32 by lia.
  rewrite Z.min_l by lia.
  replace (e1 - e2 - (24 + e1 - (24 + e2) - 24)) with 24 by lia.
  replace (24 + e1 - (24 + e2) - 24) with (e1 - e2 - 24) by lia.
  rewrite Z.shiftl_mul_pow2 by lia.
  rewrite div_eucl_div_mod.
  pose proof (Z.div_mod (Zpos m1 * 2 ^ 24) (Zpos m2) ltac:(lia)) as HN.
  pose proof (Z.mod_pos_bound (Zpos m1 * 2 ^ 24) (Zpos m2) ltac:(lia)) as Hr.
  remember (e1 - e2 - 24) as E eqn:HE.
  remember (Zpos m1 * 2 ^ 24 / Zpos m2) as q eqn:Hq.
  remember (Zpos m1 * 2 ^ 24 mod Zpos m2) as r eqn:Hrem.
  clear Hq Hrem.
  assert (Hqlo : 2 ^ 23 <= q) by nia.
  assert (Hqhi : q < 2 ^ 25) by nia.
  destruct (Z_lt_le_dec q (2 ^ 24)) as [Hsmall|Hbig].
  - assert (Hlt : Zpos m1 < Zpos m2) by nia.
    rewrite (round_aux_tail q E _
               (shr_record_of_loc q (new_location (Zpos m2) r)) E).
    + cbv zeta. rewrite shr_m_of_loc, loc_of_shr_record_of_loc.
      pose proof (round_nearest_even_bounds q (new_location (Zpos m2) r)) as Hb.
      destruct (Z.eqb_spec (round_nearest_even q (new_location (Zpos m2) r))
                           (2 ^ 24)) as [Hc|Hc].
      * exfalso.
        assert (Hup : round_nearest_even q (new_location (Zpos m2) r) = q + 1)
          by lia.
        assert (Hq : q = 2 ^ 24 - 1) by lia.
        apply round_up_new_location in Hup; [|lia|lia].
        subst q. lia.
      * eexists; eexists; split; [reflexivity|].
        rewrite Z2Pos.id by lia. lia.
    + rewrite (shr_fexp32 _ _ 0) by lia. reflexivity.
    + rewrite shr_m_of_loc. lia.
    + lia.
  - assert (Hge : Zpos m2 <= Zpos m1) by nia.
    destruct (shr_1_of_loc q (new_location (Zpos m2) r) ltac:(lia)) as [s Hs].
    assert (Hhalf : 2 ^ 23 <= q / 2 < 2 ^ 24)
      by (split; [apply Z.div_le_lower_bound|apply Z.div_lt_upper_bound]; lia).
    rewrite (round_aux_tail q E _ (Build_shr_record (q / 2) (Z.odd q) s)
               (E + 1)).
    + cbv zeta. cbn [shr_m].
      destruct (Z.eq_dec e1 e2) as [Heq|Hne].
      * assert (Hm : Zpos m1 = Zpos m2) by lia.
        assert (q = 2 ^ 24) by nia. subst q.
        change (Z.odd (2 ^ 24)) with false.
        rewrite round_even_no_round_bit.
        change (2 ^ 24 / 2 =? 2 ^ 24) with false. cbv iota.
        eexists; eexists; split; [reflexivity|].
        split; [cbn; lia|]. split; [lia|].
        left. split; [lia|]. split; [reflexivity|]. split; lia.
      * pose proof (round_nearest_even_bounds (q / 2)
                      (loc_of_shr_record
                         (Build_shr_record (q / 2) (Z.odd q) s))) as Hb.
        destruct (Z.eqb_spec
                    (round_nearest_even (q / 2)
                       (loc_of_shr_record
                          (Build_shr_record (q / 2) (Z.odd q) s)))
                    (2 ^ 24)) as [Hc|Hc].
        -- exfalso.
           assert (Hup : round_nearest_even (q / 2)
                           (loc_of_shr_record
                              (Build_shr_record (q / 2) (Z.odd q) s)) =
                         q / 2 + 1) by lia.
           apply round_up_round_bit in Hup.
           pose proof (Zmod_odd q) as Hodd. rewrite Hup in Hodd.
           assert (q = 2 ^ 25 - 1)
             by (pose proof (Z.div_mod q 2 ltac:(lia)); lia).
           nia.
        -- eexists; eexists; split; [reflexivity|].
           rewrite Z2Pos.id by lia. lia.
    + rewrite (shr_fexp32 _ _ 1) by (change (2 ^ (23 + 1)) with (2 ^ 24);
        change (2 ^ (24 + 1)) with (2 ^ 25); lia).
      cbn [shr iter_pos]. rewrite Hs. reflexivity.
    + cbn [shr_m]. exact Hhalf.
    + lia.
Qed.

Lemma float_of_int_eq_iff (r1 r2 : Z) :
  1 <= r1 < 2 ^ 31 -> 1 <= r2 < 2 ^ 31 ->
  (float_of_int r1 = float_of_int r2 <-> rounded_int r1 = rounded_int r2).
Proof.
  intros H1 H2.
  destruct (float_of_int_pos r1 H1) as (m1 & e1 & E1 & Hm1 & He1 & V1).
  destruct (float_of_int_pos r2 H2) as (m2 & e2 & E2 & Hm2 & He2 & V2).
  rewrite E1, E2. split.
  - intro H. injection H as -> ->. lia.
  - intro H.
    destruct (normal_order (Zpos m1) (Zpos m2) e1 e2) as [Hlt|[He Hm]];
      try lia;
      destruct (normal_order (Zpos m2) (Zpos m1) e2 e1) as [Hlt'|[He' Hm']];
      try lia.
    assert (m1 = m2) by lia. subst. reflexivity.
Qed.

Lemma float_of_int_exact (r1 r2 : Z) :
  1 <= r1 < 2 ^ 24 -> 1 <= r2 < 2 ^ 24 ->
  float_of_int r1 = float_of_int r2 -> r1 = r2.
Proof.
  intros H1 H2 H.
  apply float_of_int_eq_iff in H; [|lia|lia].
  unfold rounded_int in H.
  destruct (Z.ltb_spec r1 (2 ^ 24)), (Z.ltb_spec r2 (2 ^ 24)); lia.
Qed.

Lemma float_div_of_int_spec (M r : Z) :
  1 <= M < 2 ^ 31 -> 1 <= r <= M ->
  exists m e,
    float_div (float_of_int r) (float_of_int M) = S754_finite false m e
    /\ 2 ^ 23 <= Zpos m < 2 ^ 24
    /\ -55 <= e <= -23
    /\ ((e = -23 /\ m = 8388608%positive /\ float_of_int r = float_of_int M)
        \/ (e < -23 /\ float_of_int r <> float_of_int M)).
Proof.
  intros HM Hr.
  destruct (float_of_int_pos M HM) as (m2 & e2 & EM & Hm2 & He2 & V2).
  destruct (float_of_int_pos r ltac:(lia)) as (m1 & e1 & Er & Hm1 & He1 & V1).
  rewrite Er, EM.
  pose proof (rounded_int_mono r M ltac:(lia) ltac:(lia)) as Hmono.
  assert (Hord : e1 < e2 \/ (e1 = e2 /\ Zpos m1 <= Zpos m2))
    by (apply normal_order; lia).
  destruct (div_normal_spec m1 m2 e1 e2 Hm1 Hm2 He1 He2 Hord)
    as (m & e & -> & Hm & He & Hres).
  exists m, e. split; [reflexivity|]. split; [exact Hm|].
  destruct Hres as [(-> & -> & -> & ->)|(Hlt & Hne)].
  - split; [lia|]. left. repeat split.
  - split; [lia|]. right. split; [exact Hlt|].
    intro H. injection H as H' H''. lia.
Qed.

Lemma rne_frac_bounds (n d : Z) : n / d <= rne_frac n d <= n / d + 1.
Proof.
  unfold rne_frac. cbv zeta.
  destruct (_ <? _); [lia|]. destruct (_ =? _); [|lia].
  destruct (Z.even _); lia.
Qed.

Lemma rne_frac_mono (n1 n2 d : Z) :
  0 < d -> n1 <= n2 -> rne_frac n1 d <= rne_frac n2 d.
Proof.
  intros Hd Hn.
  pose proof (Z.div_le_mono n1 n2 d Hd Hn) as Hq.
  pose proof (rne_frac_bounds n1 d) as H1.
  pose proof (rne_frac_bounds n2 d) as H2.
  destruct (Z.eq_dec (n1 / d) (n2 / d)) as [Heq|Hne]; [|lia].
  clear H1 H2 Hq. unfold rne_frac. cbv zeta.
  pose proof (Z.mod_eq n1 d ltac:(lia)) as E1.
  pose proof (Z.mod_eq n2 d ltac:(lia)) as E2.
  rewrite Heq in E1. rewrite Heq.
  remember (n2 / d) as q. remember (n1 mod d) as a. remember (n2 mod d) as b.
  assert (Hab : a <= b) by lia.
  destruct (Z.ltb_spec (2 * a) d), (Z.ltb_spec (2 * b) d); try lia;
    destruct (Z.eqb_spec (2 * a) d), (Z.eqb_spec (2 * b) d); try lia;
    destruct (Z.even q); lia.
Qed.

Lemma rne_frac_double (n d : Z) :
  0 < d -> rne_frac (2 * n) (2 * d) = rne_frac n d.
Proof.
  intro Hd. unfold rne_frac. cbv zeta.
  rewrite Z.div_mul_cancel_l by lia.
  rewrite Z.mul_mod_distr_l by lia.
  remember (n mod d) as r.
  assert (E1 : (2 * (2 * r) <? 2 * d) = (2 * r <? d))
    by (destruct (Z.ltb_spec (2 * (2 * r)) (2 * d)), (Z.ltb_spec (2 * r) d);
        try reflexivity; lia).
  assert (E2 : (2 * (2 * r) =? 2 * d) = (2 * r =? d))
    by (destruct (Z.eqb_spec (2 * (2 * r)) (2 * d)), (Z.eqb_spec (2 * r) d);
        try reflexivity; lia).
  rewrite E1, E2. reflexivity.
Qed.

Lemma round_new_location (n d : Z) :
  0 < d ->
  round_nearest_even (n / d) (new_location d (n mod d)) = rne_frac n d.
Proof.
  intro Hd. pose proof (Z.mod_pos_bound n d Hd) as Hr.
  unfold rne_frac. cbv zeta. remember (n mod d) as r. remember (n / d) as q.
  unfold new_location, new_location_even, new_location_odd.
  destruct (Z.even d) eqn:Hev.
  - destruct (Z.eqb_spec r 0); cbn [round_nearest_even].
    + destruct (Z.ltb_spec (2 * r) d); [reflexivity|lia].
    + destruct (Z.compare_spec (2 * r) d); cbn [round_nearest_even];
        destruct (Z.ltb_spec (2 * r) d); try lia;
        destruct (Z.eqb_spec (2 * r) d); try lia; reflexivity.
  - assert (Hodd : d mod 2 = 1).
    { rewrite Zmod_odd, <- Z.negb_even, Hev. reflexivity. }
    assert (Hne : 2 * r <> d).
    { intro H. rewrite <- H in Hodd.
      rewrite Z.mul_comm, Z.mod_mul in Hodd by lia. lia. }
    destruct (Z.eqb_spec r 0); cbn [round_nearest_even].
    + destruct (Z.ltb_spec (2 * r) d); [reflexivity|lia].
    + destruct (Z.compare_spec (2 * r + 1) d); cbn [round_nearest_even];
        destruct (Z.ltb_spec (2 * r) d); try lia;
        destruct (Z.eqb_spec (2 * r) d); try lia; reflexivity.
Qed.

Lemma shr_1_new_location (n d : Z) :
  0 < d -> 0 <= n ->
  shr_1 (shr_record_of_loc (n / d) (new_location d (n mod d))) =
  Build_shr_record (n / d / 2) (Z.odd (n / d)) (negb (n mod d =? 0)).
Proof.
  intros Hd Hn. pose proof (Z.mod_pos_bound n d Hd) as Hr.
  assert (Hq : 0 <= n / d) by (apply Z.div_pos; lia).
  unfold new_location, new_location_even, new_location_odd.
  destruct (Z.even d); destruct (Z.eqb_spec (n mod d) 0);
    cbn [shr_record_of_loc negb];
    try (rewrite shr_1_spec by exact Hq; reflexivity).
  - destruct (2 * (n mod d) ?= d); cbn [shr_record_of_loc];
      rewrite shr_1_spec by exact Hq; reflexivity.
  - destruct (2 * (n mod d) + 1 ?= d); cbn [shr_record_of_loc];
      rewrite shr_1_spec by exact Hq; reflexivity.
Qed.

Lemma round_shifted_new_location (n d : Z) :
  0 < d -> 0 <= n ->
  round_nearest_even (n / d / 2)
    (loc_of_shr_record
       (Build_shr_record (n / d / 2) (Z.odd (n / d)) (negb (n mod d =? 0)))) =
  rne_frac n (d * 2).
Proof.
  intros Hd Hn. pose proof (Z.mod_pos_bound n d Hd) as Hr.
  unfold rne_frac. cbv zeta.
  rewrite <- Z.div_div by lia.
  rewrite Z.rem_mul_r by lia. rewrite Zmod_odd.
  remember (n mod d) as r. remember (n / d) as q.
  destruct (Z.odd q); cbn [loc_of_shr_record].
  - destruct (Z.eqb_spec r 0); cbn [negb round_nearest_even].
    + destruct (Z.ltb_spec (2 * (r + d * 1)) (d * 2)); [lia|].
      destruct (Z.eqb_spec (2 * (r + d * 1)) (d * 2)); [|lia]. reflexivity.
    + destruct (Z.ltb_spec (2 * (r + d * 1)) (d * 2)); [lia|].
      destruct (Z.eqb_spec (2 * (r + d * 1)) (d * 2)); [lia|]. reflexivity.
  - destruct (Z.ltb_spec (2 * (r + d * 0)) (d * 2)); [|lia].
    destruct (r =? 0); reflexivity.
Qed.

Lemma rne_frac_up (n d : Z) :
  0 < d -> rne_frac n d = n / d + 1 -> d <= 2 * (n mod d).
Proof.
  intro Hd. unfold rne_frac. cbv zeta.
  destruct (Z.ltb_spec (2 * (n mod d)) d); lia.
Qed.

(** The quotient of two normal numbers, the first not above the second:
    the mantissa is the quotient of the mantissas, scaled by [2^24] (or
    [2^23]), rounded once. *)
Lemma div_normal_exact (m1 m2 : positive) (e1 e2 : Z) :
  2 ^ 23 <= Zpos m1 < 2 ^ 24 -> 2 ^ 23 <= Zpos m2 < 2 ^ 24 ->
  -23 <= e1 <= 8 -> -23 <= e2 <= 8 ->
  let k := if Zpos m1 <? Zpos m2 then 0 else 1 in
  let M := rne_frac (Zpos m1 * 2 ^ 24) (Zpos m2 * 2 ^ k) in
  float_div (S754_finite false m1 e1) (S754_finite false m2 e2) =
  S754_finite false (Z.to_pos M) (e1 - e2 - 24 + k)
  /\ 2 ^ 23 <= M < 2 ^ 24.
Proof.
  intros H1 H2 He1 He2. cbv zeta.
  unfold float_div, f32_prec, f32_emax, SFdiv, SFdiv_core_binary. cbn [xorb].
  rewrite !(Zdigits2_unique (Zpos _) 24) by (cbn; lia).
  rewrite fexp32 by lia.
  rewrite Z.min_l by lia.
  replace (e1 - e2 - (24 + e1 - (24 + e2) - 24)) with 24 by lia.
  replace (24 + e1 - (24 + e2) - 24) with (e1 - e2 - 24) by lia.
  rewrite Z.shiftl_mul_pow2 by lia.
  rewrite div_eucl_div_mod.
  set (N := Zpos m1 * 2 ^ 24). set (D := Zpos m2).
  assert (HD : 0 < D) by (subst D; lia).
  assert (HN0 : 0 <= N) by (subst N; lia).
  pose proof (Z.div_mod N D ltac:(lia)) as HN.
  pose proof (Z.mod_pos_bound N D HD) as Hr.
  assert (Hqlo : 2 ^ 23 <= N / D)
    by (apply Z.div_le_lower_bound; subst N D; lia).
  assert (Hqhi : N / D < 2 ^ 25)
    by (apply Z.div_lt_upper_bound; subst N D; lia).
  destruct (Z.ltb_spec (Zpos m1) D) as [Hlt|Hge].
  - change (2 ^ 0) with 1. rewrite Z.mul_1_r, Z.add_0_r.
    assert (Hq : N / D < 2 ^ 24)
      by (apply Z.div_lt_upper_bound; subst N D; lia).
    pose proof (rne_frac_bounds N D) as Hb.
    assert (Hnc : rne_frac N D <> 2 ^ 24).
    { intro Hc. assert (Hup : rne_frac N D = N / D + 1) by lia.
      apply rne_frac_up in Hup; [|exact HD].
      assert (N / D = 2 ^ 24 - 1) by lia.
      subst N D. nia. }
    rewrite (round_aux_tail _ _ _
               (shr_record_of_loc (N / D) (new_location D (N mod D)))
               (e1 - e2 - 24)).
    + cbv zeta. rewrite shr_m_of_loc, loc_of_shr_record_of_loc.
      rewrite round_new_location by exact HD.
      destruct (Z.eqb_spec (rne_frac N D) (2 ^ 24)); [contradiction|].
      split; [reflexivity|lia].
    + rewrite (shr_fexp32 _ _ 0) by lia. reflexivity.
    + rewrite shr_m_of_loc. lia.
    + lia.
  - change (2 ^ 1) with 2.
    assert (Hq : 2 ^ 24 <= N / D)
      by (apply Z.div_le_lower_bound; subst N D; lia).
    assert (Hhalf : 2 ^ 23 <= N / D / 2 < 2 ^ 24)
      by (split; [apply Z.div_le_lower_bound|apply Z.div_lt_upper_bound]; lia).
    pose proof (rne_frac_bounds N (D * 2)) as Hb.
    rewrite <- Z.div_div in Hb by lia.
    assert (Hnc : rne_frac N (D * 2) <> 2 ^ 24).
    { intro Hc.
      assert (Hup : rne_frac N (D * 2) = N / (D * 2) + 1)
        by (rewrite <- Z.div_div by lia; lia).
      apply rne_frac_up in Hup; [|lia].
      pose proof (Z.div_mod N (D * 2) ltac:(lia)) as HN2.
      rewrite <- Z.div_div in HN2 by lia.
      assert (N / D / 2 = 2 ^ 24 - 1) by lia.
      subst N D. nia. }
    rewrite (round_aux_tail _ _ _
               (Build_shr_record (N / D / 2) (Z.odd (N / D))
                                 (negb (N mod D =? 0)))
               (e1 - e2 - 24 + 1)).
    + cbv zeta. cbn [shr_m].
      rewrite round_shifted_new_location by lia.
      destruct (Z.eqb_spec (rne_frac N (D * 2)) (2 ^ 24)); [contradiction|].
      split; [reflexivity|lia].
    + rewrite (shr_fexp32 _ _ 1) by (change (2 ^ (23 + 1)) with (2 ^ 24);
        change (2 ^ (24 + 1)) with (2 ^ 25); lia).
      cbn [shr iter_pos]. rewrite shr_1_new_location by lia. reflexivity.
    + cbn [shr_m]. exact Hhalf.
    + lia.
Qed.

Lemma leb_normal (ma mb : positive) (ea eb : Z) :
  ea < eb \/ (ea = eb /\ Zpos ma <= Zpos mb) ->
  float_leb (S754_finite false ma ea) (S754_finite false mb eb) = true.
Proof.
  intro H. unfold float_leb, SFleb, SFcompare.
  destruct H as [Hlt|[-> Hle]].
  - rewrite (proj2 (Z.compare_lt_iff ea eb) Hlt). reflexivity.
  - rewrite Z.compare_refl. fold (Pos.compare ma mb).
    destruct (Pos.compare_spec ma mb); try reflexivity. lia.
Qed.

Lemma div_normal_mono (m1 m1' m2 : positive) (e1 e1' e2 : Z) :
  2 ^ 23 <= Zpos m1 < 2 ^ 24 -> 2 ^ 23 <= Zpos m1' < 2 ^ 24 ->
  2 ^ 23 <= Zpos m2 < 2 ^ 24 ->
  -23 <= e1 <= 8 -> -23 <= e1' <= 8 -> -23 <= e2 <= 8 ->
  e1 < e1' \/ (e1 = e1' /\ Zpos m1 <= Zpos m1') ->
  float_leb (float_div (S754_finite false m1 e1) (S754_finite false m2 e2))
            (float_div (S754_finite false m1' e1') (S754_finite false m2 e2))
  = true.
Proof.
  intros H1 H1' H2 He1 He1' He2 Hord.
  destruct (div_normal_exact m1 m2 e1 e2 H1 H2 He1 He2) as [-> Ha].
  destruct (div_normal_exact m1' m2 e1' e2 H1' H2 He1' He2) as [-> Hb].
  apply leb_normal. rewrite !Z2Pos.id by lia.
  destruct (Z.ltb_spec (Zpos m1) (Zpos m2)) as [La|La];
    destruct (Z.ltb_spec (Zpos m1') (Zpos m2)) as [Lb|Lb];
    change (2 ^ 0) with 1 in *; change (2 ^ 1) with 2 in *;
    rewrite ?Z.mul_1_r in *.
  - destruct Hord as [Hlt|[-> Hle]]; [left; lia|].
    right. split; [reflexivity|]. apply rne_frac_mono; lia.
  - destruct Hord as [Hlt|[-> Hle]]; left; lia.
  - destruct Hord as [Hlt|[-> Hle]]; [|lia].
    destruct (Z.eq_dec (e1 + 1) e1') as [<-|Hne]; [|left; lia].
    right. split; [lia|].
    rewrite <- (rne_frac_double (Zpos m1' * 2 ^ 24) (Zpos m2)) by lia.
    rewrite (Z.mul_comm 2 (Zpos m2)).
    apply rne_frac_mono; lia.
  - destruct Hord as [Hlt|[-> Hle]]; [left; lia|].
    right. split; [reflexivity|]. apply rne_frac_mono; lia.
Qed.

(** ** The calls, the draws and the console of a run *)

Section RunProperties.

Context {LC : CStdlib} {RT : Raytrace} {CH : Chrono}.

Lemma draws_add (a b : nat) (s : rng) :
  draws (a + b) s = draws a s ++ draws b (advance a s).
Proof.
  revert s. induction a as [|a IH]; intro s; [reflexivity|].
  cbn [Nat.add draws advance app]. rewrite IH. reflexivity.
Qed.

Lemma rand_values_app (l r : list Event) :
  rand_values (l ++ r) = rand_values l ++ rand_values r.
Proof.
  induction l as [|e l IH]; [reflexivity|].
  destruct e; cbn; rewrite ?IH; reflexivity.
Qed.

Lemma rand_values_iterB (s : rng) : rand_values (iterB_events s) = draws 6 s.
Proof. reflexivity. Qed.

Lemma rand_values_phaseB (n : nat) (s : rng) :
  rand_values (phaseB_events n s) = draws (6 * n) s.
Proof.
  revert s. induction n as [|n IH]; intro s; [reflexivity|].
  cbn [phaseB_events]. rewrite rand_values_app, IH, rand_values_iterB.
  replace (6 * S n)%nat with (6 + 6 * n)%nat by lia.
  rewrite draws_add. reflexivity.
Qed.

Lemma rand_values_phaseA (h : Z) (n : nat) (s : rng) (e : engine) (hit : Hit) :
  rand_values (phaseA_events h n s e hit) = draws (6 * n) s.
Proof.
  revert s e hit. induction n as [|n IH]; intros s e hit; [reflexivity|].
  cbn [phaseA_events]. rewrite rand_values_app, IH.
  replace (6 * S n)%nat with (6 + 6 * n)%nat by lia.
  rewrite draws_add. reflexivity.
Qed.

Lemma forallb_phaseB (n : nat) (s : rng) :
  forallb is_rand (phaseB_events n s) = true.
Proof.
  revert s. induction n as [|n IH]; intro s; [reflexivity|].
  cbn [phaseB_events]. rewrite forallb_app, IH. reflexivity.
Qed.

Lemma forallb_phaseA (h : Z) (n : nat) (s : rng) (e : engine) (hit : Hit) :
  forallb is_rand_or_trace (phaseA_events h n s e hit) = true.
Proof.
  revert s e hit. induction n as [|n IH]; intros s e hit; [reflexivity|].
  cbn [phaseA_events]. rewrite forallb_app, IH. reflexivity.
Qed.

Lemma calls_of_app (l r : list Step) :
  calls_of (l ++ r) = calls_of l ++ calls_of r.
Proof.
  induction l as [|[e|o] l IH]; cbn [app calls_of]; rewrite ?IH; reflexivity.
Qed.

Lemma writes_of_app (l r : list Step) :
  writes_of (l ++ r) = writes_of l ++ writes_of r.
Proof.
  induction l as [|[e|o] l IH]; cbn [app writes_of]; rewrite ?IH;
    [reflexivity|reflexivity|]. rewrite app_assoc. reflexivity.
Qed.

Lemma calls_of_map_Call (l : list Event) : calls_of (map Call l) = l.
Proof.
  induction l as [|e l IH]; cbn [map calls_of]; rewrite ?IH; reflexivity.
Qed.

Lemma writes_of_map_Call (l : list Event) : writes_of (map Call l) = [].
Proof. induction l as [|e l IH]; [reflexivity|exact IH]. Qed.

Lemma steps_run_benchmark (numTrials raysPerTrial : Z) (w : World) :
  steps (run_benchmark numTrials raysPerTrial) w =
  run_steps numTrials raysPerTrial w.
Proof.
  unfold steps. rewrite exec_run_benchmark. unfold final_world. cbv zeta.
  cbn [w_timeline]. apply skipn_length_app.
Qed.

Lemma calls_of_run_steps (numTrials raysPerTrial : Z) (w : World) :
  calls_of (run_steps numTrials raysPerTrial w) =
  run_events numTrials raysPerTrial w.
Proof.
  unfold run_steps, run_events. cbv zeta.
  rewrite !calls_of_app, !calls_of_map_Call. reflexivity.
Qed.

Lemma writes_of_run_steps (numTrials raysPerTrial : Z) (w : World) :
  writes_of (run_steps numTrials raysPerTrial w) = run_stdout numTrials w.
Proof.
  unfold run_steps, run_stdout. cbv zeta.
  rewrite !writes_of_app, !writes_of_map_Call. reflexivity.
Qed.

(** X1.  Only the two loops are timed.  The steps of a run, calls of the
    external functions and writes to the console taken together in the
    order the program makes them, are: the set-up of the scene, the
    seeding and the first line of the console; the first reading of the
    clock; the calls [A] of the first loop, all of them draws or queries,
    with one query for each iteration, and no write; the second reading,
    the line of the first figure, the third reading; the calls [B] of the
    second loop, all of them draws, and no write; the fourth reading; the
    two last lines of the console and the destruction of the scene.  The
    calls among these steps are the calls of the run and the writes make
    its console.  A run takes four readings from the clock and no more. *)
Theorem timed_regions_hold_only_the_loops
    (numTrials raysPerTrial : Z) (w : World) :
  exists A B line1 line2 line3 line4,
    steps (run_benchmark numTrials raysPerTrial) w =
    map Call (setup_events w)
    ++ [Call (EvSrand 1337); Write line1; Call (EvNow (w_clock w 0%nat))]
    ++ map Call A
    ++ [Call (EvNow (w_clock w 1%nat)); Write line2;
        Call (EvNow (w_clock w 2%nat))]
    ++ map Call B
    ++ [Call (EvNow (w_clock w 3%nat)); Write line3; Write line4;
        Call (EvDeleteScene (scene_of w))]
    /\ forallb is_rand_or_trace A = true
    /\ count is_trace A = iterations numTrials raysPerTrial
    /\ forallb is_rand B = true
    /\ line1 ++ line2 ++ line3 ++ line4 =
       printed (run_benchmark numTrials raysPerTrial) w
    /\ calls_of (steps (run_benchmark numTrials raysPerTrial) w) =
       emitted (run_benchmark numTrials raysPerTrial) w
    /\ writes_of (steps (run_benchmark numTrials raysPerTrial) w) =
       printed (run_benchmark numTrials raysPerTrial) w
    /\ (forall i, w_clock (exec (run_benchmark numTrials raysPerTrial) w) i =
                  w_clock w (4 + i)%nat).
Proof.
  exists (phaseA_events (scene_of w) (iterations numTrials raysPerTrial)
            (srand 1337) (engine_ready w) (w_hit w)).
  exists (phaseB_events (iterations numTrials raysPerTrial)
            (advance (6 * iterations numTrials raysPerTrial) (srand 1337))).
  exists [OStr "Tracing a million rays..."; OEndl].
  exists [OStr "Done after "; OInt (totalCost numTrials w); OStr "ms."; OEndl].
  exists [OStr "RNG overhead "; OInt (rngCost numTrials w); OStr "ms."; OEndl].
  exists [OStr "Pure cost for tracing + overhead: ";
          OInt (sub_ll (totalCost numTrials w) (rngCost numTrials w));
          OStr "ms."; OEndl].
  rewrite steps_run_benchmark, emitted_run_benchmark, printed_run_benchmark,
    exec_run_benchmark, calls_of_run_steps, writes_of_run_steps.
  split; [reflexivity|].
  split; [apply forallb_phaseA|].
  split; [apply count_trace_phaseA|].
  split; [apply forallb_phaseB|].
  split; [reflexivity|].
  split; [reflexivity|].
  split; [reflexivity|].
  intro i. reflexivity.
Qed.

(** X2.  The draws of a run are one stream: the values [std::rand]
    returns during a run are, in order, the first [12 n] values that
    follow [srand(1337)], the second phase drawing the [6 n] values that
    come after those of the first (the generator is not seeded again);
    at the end the generator is [12 n] draws past the seeding, whatever
    its state was before the run. *)
Theorem draws_are_one_stream (numTrials raysPerTrial : Z) (w : World) :
  let n := iterations numTrials raysPerTrial in
  rand_values (emitted (run_benchmark numTrials raysPerTrial) w) =
  draws (6 * n) (srand 1337) ++ draws (6 * n) (advance (6 * n) (srand 1337))
  /\ rand_values (emitted (run_benchmark numTrials raysPerTrial) w) =
     draws (12 * n) (srand 1337)
  /\ w_rng (exec (run_benchmark numTrials raysPerTrial) w) =
     advance (12 * n) (srand 1337).
Proof.
  cbv zeta. rewrite emitted_run_benchmark, exec_run_benchmark.
  unfold run_events, setup_events, final_world. cbv zeta. cbn [w_rng].
  rewrite !rand_values_app, rand_values_phaseA, rand_values_phaseB.
  cbn [rand_values app]. rewrite app_nil_r.
  replace (12 * iterations numTrials raysPerTrial)%nat
    with (6 * iterations numTrials raysPerTrial
          + 6 * iterations numTrials raysPerTrial)%nat by lia.
  rewrite draws_add, advance_add. repeat split; reflexivity.
Qed.

Lemma iterations_max (numTrials raysPerTrial : Z) :
  Z.of_nat (iterations numTrials raysPerTrial) =
  Z.max 0 numTrials * Z.max 0 raysPerTrial.
Proof. unfold iterations. lia. Qed.

Lemma count_run_events (numTrials raysPerTrial : Z) (w : World) :
  count is_trace (run_events numTrials raysPerTrial w) =
  iterations numTrials raysPerTrial
  /\ count is_rand (run_events numTrials raysPerTrial w) =
     (12 * iterations numTrials raysPerTrial)%nat.
Proof.
  unfold run_events, setup_events. cbv zeta.
  rewrite !count_app, count_trace_phaseA, count_rand_phaseA, count_rand_phaseB.
  unfold count. rewrite filter_phaseB_none by reflexivity.
  cbn [filter is_trace is_rand List.length]. lia.
Qed.

(** X3.  A run makes [numTrials * raysPerTrial] queries and twelve times
    as many draws (six in each iteration of either phase), a bound that
    is not positive counting for zero.  [main] makes 10,000,000 queries
    and 120,000,000 draws. *)
Theorem numbers_of_queries_and_draws
    (numTrials raysPerTrial : Z) (w : World) :
  let ev := emitted (run_benchmark numTrials raysPerTrial) w in
  Z.of_nat (count is_trace ev) = Z.max 0 numTrials * Z.max 0 raysPerTrial
  /\ Z.of_nat (count is_rand ev) =
     12 * (Z.max 0 numTrials * Z.max 0 raysPerTrial)
  /\ Z.of_nat (count is_trace (emitted main w)) = 10000000
  /\ Z.of_nat (count is_rand (emitted main w)) = 120000000.
Proof.
  cbv zeta. unfold main. rewrite !emitted_run_benchmark.
  destruct (count_run_events numTrials raysPerTrial w) as [-> ->].
  destruct (count_run_events 10 1000000 w) as [-> ->].
  rewrite !Nat2Z.inj_mul, !iterations_max.
  repeat split; reflexivity.
Qed.

(** X4.  What a run prints is decided by the two elapsed times alone:
    from two worlds whose clocks give the same difference over each
    phase, a run prints the same, whatever the generator draws and
    whatever the engine answers. *)
Theorem console_depends_on_the_clock_only
    (numTrials raysPerTrial : Z) (w1 w2 : World) :
  w_clock w1 1%nat - w_clock w1 0%nat = w_clock w2 1%nat - w_clock w2 0%nat ->
  w_clock w1 3%nat - w_clock w1 2%nat = w_clock w2 3%nat - w_clock w2 2%nat ->
  printed (run_benchmark numTrials raysPerTrial) w1 =
  printed (run_benchmark numTrials raysPerTrial) w2.
Proof.
  intros HA HB. rewrite !printed_run_benchmark.
  unfold run_stdout, totalCost, rngCost, elapsedA, elapsedB.
  rewrite HA, HB. reflexivity.
Qed.

Lemma printed_ints_run (numTrials raysPerTrial : Z) (w : World) :
  2 <= numTrials ->
  printed_ints (printed (run_benchmark numTrials raysPerTrial) w) =
  [ totalCost numTrials w; rngCost numTrials w;
    totalCost numTrials w - rngCost numTrials w ].
Proof.
  intro Hn. rewrite printed_run_benchmark. unfold run_stdout.
  rewrite (sub_ll_costs numTrials w Hn). reflexivity.
Qed.

(** X5.  With a clock that does not go back, the pure cost printed is
    within one millisecond of the exact average: [numTrials] times the
    printed value differs from the difference of the two elapsed times by
    less than [numTrials]. *)
Theorem pure_cost_within_one_unit
    (numTrials raysPerTrial : Z) (w : World) :
  2 <= numTrials -> 0 <= elapsedA w -> 0 <= elapsedB w ->
  exists total rng pure,
    printed_ints (printed (run_benchmark numTrials raysPerTrial) w) =
    [total; rng; pure]
    /\ Z.abs (elapsedA w - elapsedB w - numTrials * pure) < numTrials.
Proof.
  intros Hn HA HB. rewrite printed_ints_run by exact Hn.
  do 3 eexists. split; [reflexivity|].
  unfold totalCost, rngCost, div_ll.
  destruct (quot_rem_trunc (elapsedA w) numTrials ltac:(lia)) as (EA & PA & _).
  destruct (quot_rem_trunc (elapsedB w) numTrials ltac:(lia)) as (EB & PB & _).
  specialize (PA HA). specialize (PB HB). lia.
Qed.

(** X6.  The sign of the pure cost printed follows the elapsed times: it
    is not negative when the first phase took at least as long as the
    second, not positive when it took at most as long, and so a negative
    value is printed only if the second phase took strictly longer. *)
Theorem pure_cost_sign (numTrials raysPerTrial : Z) (w : World) :
  2 <= numTrials ->
  exists total rng pure,
    printed_ints (printed (run_benchmark numTrials raysPerTrial) w) =
    [total; rng; pure]
    /\ (elapsedB w <= elapsedA w -> 0 <= pure)
    /\ (elapsedA w <= elapsedB w -> pure <= 0)
    /\ (pure < 0 -> elapsedA w < elapsedB w).
Proof.
  intro Hn. rewrite printed_ints_run by exact Hn.
  do 3 eexists. split; [reflexivity|].
  unfold totalCost, rngCost, div_ll.
  assert (Hmono : forall a b, a <= b -> a ÷ numTrials <= b ÷ numTrials)
    by (intros a b Hab; apply Z.quot_le_mono; lia).
  split; [|split].
  - intro H. specialize (Hmono _ _ H). lia.
  - intro H. specialize (Hmono _ _ H). lia.
  - intro H.
    destruct (Z_lt_le_dec (elapsedA w) (elapsedB w)) as [Hlt|Hge]; [exact Hlt|].
    specialize (Hmono _ _ Hge). lia.
Qed.

End RunProperties.

(** ** The conversion of a draw *)

Section SamplerProperties.

Context {LC : CStdlib}.

Lemma RAND_MAX_range : 1 <= RAND_MAX < 2 ^ 31.
Proof. pose proof RAND_MAX_min. pose proof RAND_MAX_int. lia. Qed.

Lemma rand_to_float_zero : rand_to_float 0 = float_zero.
Proof.
  unfold rand_to_float.
  destruct (float_of_int_pos RAND_MAX RAND_MAX_range) as (m & e & -> & _).
  reflexivity.
Qed.

Lemma rand_to_float_spec (r : Z) :
  1 <= r <= RAND_MAX ->
  exists m e,
    rand_to_float r = S754_finite false m e
    /\ 2 ^ 23 <= Zpos m < 2 ^ 24
    /\ -55 <= e <= -23
    /\ ((e = -23 /\ m = 8388608%positive
         /\ float_of_int r = float_of_int RAND_MAX)
        \/ (e < -23 /\ float_of_int r <> float_of_int RAND_MAX)).
Proof.
  intro Hr. unfold rand_to_float.
  apply float_div_of_int_spec; [apply RAND_MAX_range|exact Hr].
Qed.

(** X7.  On every platform a draw of 0 gives [0.0f] and a draw of
    [RAND_MAX] gives exactly [1.0f]. *)
Theorem rand_to_float_end_points :
  rand_to_float 0 = float_zero /\ rand_to_float RAND_MAX = float_one.
Proof.
  split; [apply rand_to_float_zero|].
  pose proof RAND_MAX_range as HM.
  assert (Hr : 1 <= RAND_MAX <= RAND_MAX) by lia.
  destruct (rand_to_float_spec RAND_MAX Hr)
    as (m & e & -> & _ & _ & [(-> & -> & _)|(_ & Hne)]).
  - reflexivity.
  - contradiction Hne. reflexivity.
Qed.

(** X8.  What [(float)std::rand() / (float)RAND_MAX] can be: [+0.0f]
    for the draw 0, and for any other draw a positive normal number
    whose value is at least [2^-32] and at most [1]; never a NaN, an
    infinity, a negative number, a negative zero, a subnormal number or
    a number above [1.0f]. *)
Theorem rand_to_float_zero_or_normal (r : Z) :
  0 <= r <= RAND_MAX ->
  (r = 0 /\ rand_to_float r = float_zero)
  \/ (0 < r /\ positive_normal (rand_to_float r)).
Proof.
  intro Hr. destruct (Z.eq_dec r 0) as [->|Hnz].
  - left. split; [reflexivity|apply rand_to_float_zero].
  - right. split; [lia|].
    destruct (rand_to_float_spec r ltac:(lia)) as (m & e & E & Hm & He & Hv).
    exists m, e. split; [exact E|]. split; [exact Hm|]. split; [exact He|].
    assert (Hlo : 0 < 2 ^ (e + 55)) by (apply Z.pow_pos_nonneg; lia).
    destruct Hv as [(-> & -> & _)|(Hlt & _)];
      [split; vm_compute; discriminate|].
    assert (Hhi : 2 ^ (e + 55) <= 2 ^ 31) by (apply Z.pow_le_mono_r; lia).
    change (2 ^ 55) with (2 ^ 24 * 2 ^ 31).
    split; nia.
Qed.

(** X9.  A draw gives [1.0f] exactly when it converts to the same
    [float] as [RAND_MAX]. *)
Theorem rand_to_float_one_iff (r : Z) :
  0 <= r <= RAND_MAX ->
  (rand_to_float r = float_one <-> float_of_int r = float_of_int RAND_MAX).
Proof.
  intro Hr. destruct (Z.eq_dec r 0) as [->|Hnz].
  - rewrite rand_to_float_zero.
    destruct (float_of_int_pos RAND_MAX RAND_MAX_range) as (m & e & -> & _).
    split; intro H; discriminate H.
  - destruct (rand_to_float_spec r ltac:(lia))
      as (m & e & -> & _ & _ & [(-> & -> & Heq)|(Hlt & Hne)]).
    + split; [intros _; exact Heq|intros _; reflexivity].
    + split; [|intro H; contradiction].
      intro H. injection H as _ He. lia.
Qed.

(** X10.  Where [RAND_MAX] is below [2^24] (as 32767 is), every draw
    other than [RAND_MAX] itself gives a value in the half-open interval
    from [0.0f] to [1.0f]. *)
Theorem rand_to_float_below_one_small_RAND_MAX (r : Z) :
  RAND_MAX < 2 ^ 24 -> 0 <= r < RAND_MAX ->
  in_unit_half_open (rand_to_float r).
Proof.
  intros HM Hr. pose proof RAND_MAX_range as HR.
  destruct (Z.eq_dec r 0) as [->|Hnz].
  - rewrite rand_to_float_zero. split; reflexivity.
  - destruct (rand_to_float_spec r ltac:(lia))
      as (m & e & -> & _ & _ & [(_ & _ & Heq)|(Hlt & _)]).
    + apply float_of_int_exact in Heq; lia.
    + split; [reflexivity|].
      unfold float_ltb, SFltb, float_one, SFcompare.
      rewrite (proj2 (Z.compare_lt_iff e (-23)) Hlt). reflexivity.
Qed.

(** X11.  Where [RAND_MAX] is [2^31 - 1], the draws that give [1.0f]
    are exactly the 64 highest ones, from [2^31 - 64] up. *)
Theorem rand_to_float_one_31_bits (r : Z) :
  RAND_MAX = 2147483647 -> 0 <= r <= RAND_MAX ->
  (rand_to_float r = float_one <-> 2147483584 <= r).
Proof.
  intros HM Hr. rewrite rand_to_float_one_iff by exact Hr.
  rewrite HM in *.
  destruct (Z.eq_dec r 0) as [->|Hnz].
  - split; [intro H; discriminate H|lia].
  - rewrite float_of_int_eq_iff by lia.
    change (rounded_int 2147483647) with 2147483648.
    split.
    + intro H.
      destruct (Z_lt_le_dec r 2147483584) as [Hlt|Hge]; [exfalso|exact Hge].
      pose proof (rounded_int_mono r 2147483583 ltac:(lia) ltac:(lia)) as Hm.
      change (rounded_int 2147483583) with 2147483520 in Hm. lia.
    + intro H.
      pose proof (rounded_int_mono 2147483584 r ltac:(lia) ltac:(lia)) as Hlo.
      pose proof (rounded_int_mono r 2147483647 ltac:(lia) ltac:(lia)) as Hhi.
      change (rounded_int 2147483584) with 2147483648 in Hlo.
      change (rounded_int 2147483647) with 2147483648 in Hhi. lia.
Qed.

(** X12.  The conversion keeps the order of the draws: a larger draw
    never gives a smaller [float]. *)
Theorem rand_to_float_monotone (r1 r2 : Z) :
  0 <= r1 -> r1 <= r2 -> r2 <= RAND_MAX ->
  float_leb (rand_to_float r1) (rand_to_float r2) = true.
Proof.
  intros H0 H12 HM. pose proof RAND_MAX_range as HR.
  assert (Hr2 : 0 <= r2 <= RAND_MAX) by lia.
  destruct (Z.eq_dec r1 0) as [->|Hnz1].
  - rewrite rand_to_float_zero.
    destruct (rand_to_float_zero_or_normal r2 Hr2)
      as [[_ ->]|[_ (m & e & -> & _)]]; reflexivity.
  - assert (R1 : 1 <= r1 < 2 ^ 31) by lia.
    assert (R2 : 1 <= r2 < 2 ^ 31) by lia.
    unfold rand_to_float.
    destruct (float_of_int_pos RAND_MAX HR) as (m & e & -> & Hm & He & V).
    destruct (float_of_int_pos r1 R1) as (m1 & e1 & -> & Hm1 & He1 & V1).
    destruct (float_of_int_pos r2 R2) as (m2 & e2 & -> & Hm2 & He2 & V2).
    assert (Hmono : rounded_int r1 <= rounded_int r2)
      by (apply rounded_int_mono; lia).
    apply div_normal_mono; try assumption.
    apply normal_order; lia.
Qed.

End SamplerProperties.

(** ** The further properties on the concrete platforms *)

(** The example world and the world that reads the same clock 1000 ticks
    later print the same. *)
Lemma console_depends_on_the_clock_only_witness :
  example_clock 1 - example_clock 0 =
    (1000 + example_clock 1) - (1000 + example_clock 0)
  /\ example_clock 3 - example_clock 2 =
    (1000 + example_clock 3) - (1000 + example_clock 2)
  /\ printed (@main example_stdlib counting_engine nanosecond_chrono)
            example_world =
    printed (@main example_stdlib counting_engine nanosecond_chrono)
            later_world.
Proof.
  split; [reflexivity|]. split; [reflexivity|].
  apply (@console_depends_on_the_clock_only
           example_stdlib counting_engine nanosecond_chrono
           10 1000000 example_world later_world); reflexivity.
Defined.

(** [main] on the example world: 7 ms and 38 ms over ten trials; ten
    times the printed pure cost is less than 10 away from -31. *)
Lemma pure_cost_within_one_unit_witness :
  2 <= 10 /\ 0 <= 7 /\ 0 <= 38
  /\ exists total rng pure,
      printed_ints
        (printed (@main example_stdlib counting_engine nanosecond_chrono)
                 example_world) = [total; rng; pure]
      /\ Z.abs (7 - 38 - 10 * pure) < 10.
Proof.
  split; [lia|]. split; [lia|]. split; [lia|].
  apply (@pure_cost_within_one_unit
           example_stdlib counting_engine nanosecond_chrono
           10 1000000 example_world).
  - lia.
  - change (0 <= 7). lia.
  - change (0 <= 38). lia.
Defined.

(** [main] on the example world, where the second phase took longer. *)
Lemma pure_cost_sign_witness :
  2 <= 10
  /\ exists total rng pure,
      printed_ints
        (printed (@main example_stdlib counting_engine nanosecond_chrono)
                 example_world) = [total; rng; pure]
      /\ (38 <= 7 -> 0 <= pure)
      /\ (7 <= 38 -> pure <= 0)
      /\ (pure < 0 -> 7 < 38).
Proof.
  split; [lia|].
  apply (@pure_cost_sign
           example_stdlib counting_engine nanosecond_chrono
           10 1000000 example_world).
  lia.
Defined.

(** The first draw after [srand(1337)] on the example generator. *)
Lemma rand_to_float_zero_or_normal_witness :
  0 <= 1199 <= 32767
  /\ ((1199 = 0 /\ @rand_to_float example_stdlib 1199 = float_zero)
      \/ (0 < 1199 /\ positive_normal (@rand_to_float example_stdlib 1199))).
Proof.
  split; [lia|].
  apply (@rand_to_float_zero_or_normal example_stdlib 1199).
  change (0 <= 1199 <= 32767). lia.
Defined.

Lemma rand_to_float_one_iff_witness :
  0 <= 32767 <= 32767
  /\ (@rand_to_float example_stdlib 32767 = float_one
      <-> float_of_int 32767 = float_of_int 32767).
Proof.
  split; [lia|].
  apply (@rand_to_float_one_iff example_stdlib 32767).
  change (0 <= 32767 <= 32767). lia.
Defined.

Lemma rand_to_float_below_one_small_RAND_MAX_witness :
  32767 < 2 ^ 24 /\ 0 <= 32766 < 32767
  /\ in_unit_half_open (@rand_to_float example_stdlib 32766).
Proof.
  split; [lia|]. split; [lia|].
  apply (@rand_to_float_below_one_small_RAND_MAX example_stdlib 32766).
  - change (32767 < 2 ^ 24). lia.
  - change (0 <= 32766 < 32767). lia.
Defined.

Lemma rand_to_float_one_31_bits_witness :
  2147483647 = 2147483647 /\ 0 <= 2147483600 <= 2147483647
  /\ (@rand_to_float lcg31_stdlib 2147483600 = float_one
      <-> 2147483584 <= 2147483600).
Proof.
  split; [reflexivity|]. split; [lia|].
  apply (@rand_to_float_one_31_bits lcg31_stdlib 2147483600).
  - reflexivity.
  - change (0 <= 2147483600 <= 2147483647). lia.
Defined.

(** The first two draws after [srand(1337)] on the example generator. *)
Lemma rand_to_float_monotone_witness :
  0 <= 1199 /\ 1199 <= 22292 /\ 22292 <= 32767
  /\ float_leb (@rand_to_float example_stdlib 1199)
               (@rand_to_float example_stdlib 22292) = true.
Proof.
  split; [lia|]. split; [lia|]. split; [lia|].
  apply (@rand_to_float_monotone example_stdlib 1199 22292).
  - lia.
  - lia.
  - change (22292 <= 32767). lia.
Defined.
